(** * MCP bridge (mcp-bridge/bridge.py): session handshake, SSE frame
      decoding and the JSON-RPC gateway.

    The development embeds the three parts of [bridge.py] that carry the
    protocol logic:
    - [get_or_create_session], the lock-guarded lazy handshake;
    - the SSE decode loop inside [handle_jsonrpc];
    - [handle_jsonrpc] itself, with its two [except] clauses;
    - [fastmcp_request], the per-method handlers built on it and
      [health_check].

    Python text is a sequence of Unicode code points, bytes are [Byte.byte],
    JSON values are an inductive type whose objects are insertion-ordered
    association lists (a Python [dict]).  The libraries the bridge calls
    (httpx, json, starlette) are taken at their documented contract:
    [json.loads] either returns a value or raises [JSONDecodeError],
    building a [JSONResponse] does not fail, and the upstream server is an
    arbitrary function of the traffic so far. *)

From stdpp Require Import prelude strings pretty.
From Stdlib Require Import Strings.Byte NArith ZArith Lia.

(** ** Text and bytes *)

(** A Python [str]: a list of code points. *)
Definition str := list N.

(** A Python [bytes] value. *)
Definition bytes := list byte.

(** An ASCII literal of the source as a [str]. *)
Definition py (s : string) : str := map Byte.to_N (String.list_byte_of_string s).

Fixpoint str_eqb (a b : str) : bool :=
  match a, b with
  | [], [] => true
  | x :: a', y :: b' => N.eqb x y && str_eqb a' b'
  | _, _ => false
  end.

(** ['\n'] *)
Definition NL : N := 10%N.

(** [c in s] for a single character [c]. *)
Definition str_contains (c : N) (s : str) : bool := existsb (N.eqb c) s.

(** [s.split(c, 1)] as the pair (before, after) of the first [c]; the
    source only evaluates it under the guard [c in s]. *)
Fixpoint split1 (c : N) (s : str) : str * str :=
  match s with
  | [] => ([], [])
  | x :: r => if N.eqb x c then ([], r)
              else let '(a, b) := split1 c r in (x :: a, b)
  end.

(** [str.isspace] on one code point (the characters [str.strip()] removes). *)
Definition isspace (c : N) : bool :=
  ((9 <=? c) && (c <=? 13) || (28 <=? c) && (c <=? 32) || (c =? 133) || (c =? 160)
   || (c =? 5760) || (8192 <=? c) && (c <=? 8202) || (c =? 8232) || (c =? 8233)
   || (c =? 8239) || (c =? 8287) || (c =? 12288))%N.

Fixpoint lstrip (s : str) : str :=
  match s with
  | [] => []
  | c :: r => if isspace c then lstrip r else s
  end.

Definition rstrip (s : str) : str := rev (lstrip (rev s)).

(** [s.strip()] *)
Definition strip (s : str) : str := rstrip (lstrip s).

(** [s.startswith(p)] *)
Fixpoint startswith (p s : str) : bool :=
  match p, s with
  | [], _ => true
  | x :: p', y :: s' => N.eqb x y && startswith p' s'
  | _ :: _, [] => false
  end.

(** *** [bytes.decode('utf-8', errors='ignore')]

    A well-formed UTF-8 sequence yields its code point; any byte that does
    not start one is dropped and decoding resumes at the next byte.  (CPython
    drops the maximal ill-formed prefix at once; the bytes of such a prefix
    after the first are continuation bytes, which are dropped one by one
    here, so the decoded text is the same.) *)

Definition is_cont (b : N) : bool := ((128 <=? b) && (b <=? 191))%N.

Definition second_ok3 (b0 b1 : N) : bool :=
  (if b0 =? 224 then (160 <=? b1) && (b1 <=? 191)
   else if b0 =? 237 then (128 <=? b1) && (b1 <=? 159)
   else is_cont b1)%N.

Definition second_ok4 (b0 b1 : N) : bool :=
  (if b0 =? 240 then (144 <=? b1) && (b1 <=? 191)
   else if b0 =? 244 then (128 <=? b1) && (b1 <=? 143)
   else is_cont b1)%N.

Fixpoint utf8_ignore (bs : list N) : str :=
  match bs with
  | [] => []
  | b0 :: r0 =>
    if (b0 <? 128)%N then b0 :: utf8_ignore r0
    else if ((194 <=? b0) && (b0 <=? 223))%N then
      match r0 with
      | b1 :: r1 =>
        if is_cont b1 then ((b0 - 192) * 64 + (b1 - 128))%N :: utf8_ignore r1
        else utf8_ignore r0
      | [] => []
      end
    else if ((224 <=? b0) && (b0 <=? 239))%N then
      match r0 with
      | b1 :: b2 :: r2 =>
        if second_ok3 b0 b1 && is_cont b2
        then ((b0 - 224) * 4096 + (b1 - 128) * 64 + (b2 - 128))%N :: utf8_ignore r2
        else utf8_ignore r0
      | _ => utf8_ignore r0
      end
    else if ((240 <=? b0) && (b0 <=? 244))%N then
      match r0 with
      | b1 :: b2 :: b3 :: r3 =>
        if second_ok4 b0 b1 && is_cont b2 && is_cont b3
        then ((b0 - 240) * 262144 + (b1 - 128) * 4096 + (b2 - 128) * 64 + (b3 - 128))%N
             :: utf8_ignore r3
        else utf8_ignore r0
      | _ => utf8_ignore r0
      end
    else utf8_ignore r0
  end.

(** [chunk.decode('utf-8', errors='ignore')] *)
Definition decode_utf8_ignore (chunk : bytes) : str := utf8_ignore (map Byte.to_N chunk).

(** The UTF-8 encoding of ASCII text, for building streams. *)
Definition ascii_bytes (s : string) : bytes := String.list_byte_of_string s.

(** ** JSON values *)

#[local] Set Warnings "-register-all".

(** What [json.loads] returns.  A [dict] keeps insertion order; a float is
    kept as the literal it was read from. *)
Inductive json : Type :=
| JNull
| JBool (b : bool)
| JInt (z : Z)
| JFloat (lit : str)
| JStr (s : str)
| JList (l : list json)
| JDict (d : list (str * json)).

Fixpoint dict_lookup (k : str) (d : list (str * json)) : option json :=
  match d with
  | [] => None
  | (k', v) :: r => if str_eqb k k' then Some v else dict_lookup k r
  end.

(** [d[k] = v] on an insertion-ordered dict. *)
Fixpoint dict_set (k : str) (v : json) (d : list (str * json)) : list (str * json) :=
  match d with
  | [] => [(k, v)]
  | (k', v') :: r => if str_eqb k k' then (k', v) :: r else (k', v') :: dict_set k v r
  end.

(** [isinstance(j, dict)] *)
Definition is_dict (j : json) : bool :=
  match j with JDict _ => true | _ => false end.

(** [k in j] for a dict [j]. *)
Definition dict_has (k : str) (j : json) : bool :=
  match j with
  | JDict d => match dict_lookup k d with Some _ => true | None => false end
  | _ => false
  end.

(** ** A reference [json.loads]

    The theorems below hold for any parser; the examples run this one.  It
    follows the grammar the [json] module accepts: RFC 8259 plus the
    constants [NaN], [Infinity], [-Infinity]; whitespace is skipped inside
    arrays and objects and around the document; a duplicated key keeps its
    first position and its last value. *)
Module RefJson.

Definition is_ws (c : N) : bool := ((c =? 32) || (c =? 9) || (c =? 10) || (c =? 13))%N.

Fixpoint skip_ws (s : str) : str :=
  match s with
  | c :: r => if is_ws c then skip_ws r else s
  | [] => []
  end.

Definition is_digit (c : N) : bool := ((48 <=? c) && (c <=? 57))%N.

Definition hex_val (c : N) : option N :=
  (if is_digit c then Some (c - 48)
   else if (97 <=? c) && (c <=? 102) then Some (c - 87)
   else if (65 <=? c) && (c <=? 70) then Some (c - 55)
   else None)%N.

Definition hex4 (a b c d : N) : option N :=
  match hex_val a, hex_val b, hex_val c, hex_val d with
  | Some x, Some y, Some z, Some w => Some (x * 4096 + y * 256 + z * 16 + w)%N
  | _, _, _, _ => None
  end.

Definition simple_escape (c : N) : option N :=
  (if c =? 34 then Some 34 else if c =? 92 then Some 92 else if c =? 47 then Some 47
   else if c =? 98 then Some 8 else if c =? 102 then Some 12 else if c =? 110 then Some 10
   else if c =? 114 then Some 13 else if c =? 116 then Some 9 else None)%N.

Definition is_high (u : N) : bool := ((55296 <=? u) && (u <=? 56319))%N.
Definition is_low (u : N) : bool := ((56320 <=? u) && (u <=? 57343))%N.

(** The text after an opening quote, up to the closing one. *)
Fixpoint scan_string (s : str) (acc : str) : option (str * str) :=
  match s with
  | [] => None
  | c :: r =>
    if (c =? 34)%N then Some (rev acc, r)
    else if (c =? 92)%N then
      match r with
      | [] => None
      | e :: r1 =>
        if (e =? 117)%N then
          match r1 with
          | h1 :: h2 :: h3 :: h4 :: r2 =>
            match hex4 h1 h2 h3 h4 with
            | None => None
            | Some u =>
              match r2 with
              | b :: v :: l1 :: l2 :: l3 :: l4 :: r3 =>
                match (if is_high u && (b =? 92)%N && (v =? 117)%N
                       then hex4 l1 l2 l3 l4 else None) with
                | Some lo =>
                  if is_low lo
                  then scan_string r3 ((65536 + (u - 55296) * 1024 + (lo - 56320))%N :: acc)
                  else scan_string r2 (u :: acc)
                | None => scan_string r2 (u :: acc)
                end
              | _ => scan_string r2 (u :: acc)
              end
            end
          | _ => None
          end
        else
          match simple_escape e with
          | Some x => scan_string r1 (x :: acc)
          | None => None
          end
      end
    else if (c <? 32)%N then None
    else scan_string r (c :: acc)
  end.

Fixpoint span_digits (s : str) : str * str :=
  match s with
  | c :: r => if is_digit c then let '(d, t) := span_digits r in (c :: d, t) else ([], s)
  | [] => ([], [])
  end.

Definition digits_value (d : str) : Z :=
  fold_left (fun acc c => (acc * 10 + Z.of_N (c - 48))%Z) d 0%Z.

(** A number at the head of [s]: the integer part, then an optional
    fraction and exponent, each taken only when complete. *)
Definition scan_number (s : str) : option (json * str) :=
  let '(neg, s0) := match s with
                    | c :: r => if (c =? 45)%N then (true, r) else (false, s)
                    | [] => (false, s)
                    end in
  let '(ip, s1) := match s0 with
                   | c :: r => if (c =? 48)%N then ([c], r) else span_digits s0
                   | [] => ([], [])
                   end in
  match ip with
  | [] => None
  | _ =>
    let '(fp, s2) := match s1 with
                     | c :: r =>
                       if (c =? 46)%N then
                         let '(d, t) := span_digits r in
                         match d with [] => ([], s1) | _ => (c :: d, t) end
                       else ([], s1)
                     | [] => ([], s1)
                     end in
    let '(ep, s3) := match s2 with
                     | c :: r =>
                       if (c =? 101)%N || (c =? 69)%N then
                         let '(sg, r') := match r with
                                          | x :: r'' => if (x =? 43)%N || (x =? 45)%N
                                                        then ([x], r'') else ([], r)
                                          | [] => ([], r)
                                          end in
                         let '(d, t) := span_digits r' in
                         match d with [] => ([], s2) | _ => (c :: sg ++ d, t) end
                       else ([], s2)
                     | [] => ([], s2)
                     end in
    match fp, ep with
    | [], [] => Some (JInt (if neg then - digits_value ip else digits_value ip)%Z, s3)
    | _, _ => Some (JFloat ((if neg then [45%N] else []) ++ ip ++ fp ++ ep), s3)
    end
  end.

Definition scan_literal (s : str) : option (json * str) :=
  if startswith (py "null") s then Some (JNull, drop 4 s)
  else if startswith (py "true") s then Some (JBool true, drop 4 s)
  else if startswith (py "false") s then Some (JBool false, drop 5 s)
  else if startswith (py "NaN") s then Some (JFloat (py "NaN"), drop 3 s)
  else if startswith (py "Infinity") s then Some (JFloat (py "Infinity"), drop 8 s)
  else if startswith (py "-Infinity") s then Some (JFloat (py "-Infinity"), drop 9 s)
  else scan_number s.

Fixpoint scan_value (fuel : nat) (s : str) : option (json * str) :=
  match fuel with
  | O => None
  | S f =>
    match s with
    | [] => None
    | c :: r =>
      if (c =? 34)%N then
        match scan_string r [] with
        | Some (t, r') => Some (JStr t, r')
        | None => None
        end
      else if (c =? 123)%N then
        match skip_ws r with
        | x :: r' => if (x =? 125)%N then Some (JDict [], r') else scan_members f (x :: r') []
        | [] => None
        end
      else if (c =? 91)%N then
        match skip_ws r with
        | x :: r' => if (x =? 93)%N then Some (JList [], r') else scan_elements f (x :: r') []
        | [] => None
        end
      else scan_literal s
    end
  end
with scan_elements (fuel : nat) (s : str) (acc : list json) : option (json * str) :=
  match fuel with
  | O => None
  | S f =>
    match scan_value f s with
    | None => None
    | Some (v, r) =>
      match skip_ws r with
      | x :: r' =>
        if (x =? 44)%N then scan_elements f (skip_ws r') (v :: acc)
        else if (x =? 93)%N then Some (JList (rev (v :: acc)), r')
        else None
      | [] => None
      end
    end
  end
with scan_members (fuel : nat) (s : str) (acc : list (str * json)) : option (json * str) :=
  match fuel with
  | O => None
  | S f =>
    match s with
    | q :: r =>
      if (q =? 34)%N then
        match scan_string r [] with
        | None => None
        | Some (k, r1) =>
          match skip_ws r1 with
          | x :: r2 =>
            if (x =? 58)%N then
              match scan_value f (skip_ws r2) with
              | None => None
              | Some (v, r3) =>
                match skip_ws r3 with
                | y :: r4 =>
                  if (y =? 44)%N then scan_members f (skip_ws r4) (dict_set k v acc)
                  else if (y =? 125)%N then Some (JDict (dict_set k v acc), r4)
                  else None
                | [] => None
                end
              end
            else None
          | [] => None
          end
        end
      else None
    | [] => None
    end
  end.

(** [json.loads(s)]: [None] stands for [JSONDecodeError].  A value or a
    bracket is consumed at least every second step of the descent, so twice
    the length bounds the recursion. *)
Definition loads (s : str) : option json :=
  match scan_value (2 * length s + 2) (skip_ws s) with
  | Some (v, r) => match skip_ws r with [] => Some v | _ => None end
  | None => None
  end.

End RefJson.

(** ** Exceptions, HTTP traffic and the bridge's globals *)

(** The exceptions that occur in the modelled code.  [TransportError] stands
    for the [httpx] request errors (connection, timeout, broken stream); only
    [HTTPStatusError] is caught by the first [except] clause. *)
Inductive exn : Type :=
| JSONDecodeError
| AttributeError
| HTTPStatusError (status : Z)
| TransportError (detail : str).

Definition is_HTTPStatusError (e : exn) : bool :=
  match e with HTTPStatusError _ => true | _ => false end.

(** An outbound [POST /mcp]: the headers and the [json=] payload. *)
Record request : Type := { req_headers : list (str * str); req_json : json }.

(** An upstream response: the body arrives as [chunks]; [broken] is the
    transport error raised by the byte iterator after the last chunk, if the
    connection does not close cleanly. *)
Record response : Type :=
  { status_code : Z; headers : list (str * str); chunks : list bytes; broken : option str }.

(** What a POST comes back with: a transport error or a response. *)
Inductive reply : Type :=
| Refused (detail : str)
| Answered (r : response).

(** The traffic on the upstream connection. *)
Inductive event : Type :=
| Posted (q : request)
| Pulled (chunk : bytes).

(** The module globals: [http_client] (created or not), [session_id], and
    the traffic so far. *)
Record bridge : Type :=
  { http_client : bool; session_id : option str; wire : list event }.

Definition boot : bridge := {| http_client := false; session_id := None; wire := [] |}.

Definition emit (e : event) (st : bridge) : bridge :=
  {| http_client := http_client st; session_id := session_id st; wire := wire st ++ [e] |}.

Definition emit_all (es : list event) (st : bridge) : bridge :=
  {| http_client := http_client st; session_id := session_id st; wire := wire st ++ es |}.

Definition set_session (sid : option str) (st : bridge) : bridge :=
  {| http_client := http_client st; session_id := sid; wire := wire st |}.

(** The body of a [JSONResponse] and its status (200 unless given). *)
Record JSONResponse : Type := { content : json; http_status : Z }.

(** ** A state-and-exception monad for the coroutines *)

Inductive result (A : Type) : Type :=
| Return (a : A)
| Raise (e : exn).
Arguments Return {A} a.
Arguments Raise {A} e.

Definition M (A : Type) : Type := bridge -> result A * bridge.

Definition ret {A} (a : A) : M A := fun st => (Return a, st).
Definition raise {A} (e : exn) : M A := fun st => (Raise e, st).
Definition bind {A B} (m : M A) (k : A -> M B) : M B :=
  fun st => match m st with
            | (Return a, st') => k a st'
            | (Raise e, st') => (Raise e, st')
            end.
Definition lift {A} (r : result A) : M A := fun st => (r, st).
Definition read_session : M (option str) := fun st => (Return (session_id st), st).
Definition tell (es : list event) : M unit := fun st => (Return tt, emit_all es st).

Notation "x <- m ;; k" := (bind m (fun x => k))
  (at level 100, m at next level, right associativity).
Notation "m ;;; k" := (bind m (fun _ => k))
  (at level 100, right associativity).

(** ** Helpers of the source's expressions *)

(** [if x:] for an [Optional[str]]. *)
Definition truthy (x : option str) : bool :=
  match x with Some (_ :: _) => true | _ => false end.

(** [obj.get(k)]: a missing key gives [None] (JSON [null]); anything but a
    dict has no [get]. *)
Definition py_get (obj : json) (k : str) : result json :=
  match obj with
  | JDict d => Return (default JNull (dict_lookup k d))
  | _ => Raise AttributeError
  end.

Definition ascii_lower (c : N) : N := if ((65 <=? c) && (c <=? 90))%N then (c + 32)%N else c.

Fixpoint join (sep : str) (l : list str) : str :=
  match l with
  | [] => []
  | [x] => x
  | x :: r => x ++ sep ++ join sep r
  end.

(** [response.headers.get(name)]: names compare case-insensitively, repeated
    headers are joined with a comma. *)
Definition headers_get (name : str) (h : list (str * str)) : option str :=
  match map snd (filter (fun kv => str_eqb (map ascii_lower (fst kv)) (map ascii_lower name) = true) h) with
  | [] => None
  | vs => Some (join (py ", ") vs)
  end.

(** [response.is_success], the test inside [raise_for_status]. *)
Definition is_success (r : response) : bool :=
  ((200 <=? status_code r) && (status_code r <=? 299))%Z.

Definition raise_for_status (r : response) : result unit :=
  if is_success r then Return tt else Raise (HTTPStatusError (status_code r)).

(** [method != "initialize"] *)
Definition is_initialize (method : json) : bool :=
  match method with JStr s => str_eqb s (py "initialize") | _ => false end.

Definition base_headers : list (str * str) :=
  [(py "Accept", py "application/json, text/event-stream");
   (py "Content-Type", py "application/json")].

Definition init_request : json :=
  JDict [(py "jsonrpc", JStr (py "2.0"));
         (py "id", JInt 0);
         (py "method", JStr (py "initialize"));
         (py "params",
          JDict [(py "protocolVersion", JStr (py "2024-11-05"));
                 (py "capabilities", JDict []);
                 (py "clientInfo",
                  JDict [(py "name", JStr (py "mcp-bridge"));
                         (py "version", JStr (py "1.0.0"))])])].

(** The handshake POST of [get_or_create_session]. *)
Definition handshake : request := {| req_headers := base_headers; req_json := init_request |}.

(** [{"jsonrpc": "2.0", "id": request_id, "result": {}}] *)
Definition ack_envelope (request_id : json) : json :=
  JDict [(py "jsonrpc", JStr (py "2.0")); (py "id", request_id); (py "result", JDict [])].

(** [{"jsonrpc": "2.0", "id": ..., "error": {"code": -32603, "message": ...}}] *)
Definition error_envelope (request_id : json) (message : str) : json :=
  JDict [(py "jsonrpc", JStr (py "2.0")); (py "id", request_id);
         (py "error", JDict [(py "code", JInt (-32603)); (py "message", JStr message)])].

Definition no_response_message : str := py "No valid JSON-RPC response found in SSE stream".
Definition server_error_prefix : str := py "FastMCP server error: ".
Definition internal_error_prefix : str := py "Internal error: ".
Definition data_prefix : str := py "data: ".
Definition done_sentinel : str := py "[DONE]".
Definition default_session : str := py "default-session".
Definition session_header : str := py "mcp-session-id".

(** ** The SSE decode loop (bridge.py, lines 381-401) *)

(** How the inner [while '\n' in buffer] loop ends: with the [return] of a
    JSON-RPC object, or by falling out with the rest of the buffer. *)
Inductive scan : Type :=
| Found (result : json)
| Pending (buffer : str).

Section Decoder.

(** [json.loads]; [None] is [json.JSONDecodeError]. *)
Variable json_loads : str -> option json.

(** One pass of the loop body on a line already split off the buffer:
    [Some result] when the pass reaches [return JSONResponse(result)]. *)
Definition handle_line (line : str) : option json :=
  let line := strip line in
  if startswith data_prefix line then
    let json_str := drop 6 line in
    if negb (str_eqb json_str []) && negb (str_eqb json_str done_sentinel) then
      match json_loads json_str with
      | Some result =>
        if is_dict result && dict_has (py "jsonrpc") result then Some result else None
      | None => None
      end
    else None
  else None.

(** [while '\n' in buffer: line, buffer = buffer.split('\n', 1); ...].
    Every pass removes a newline, so [length buffer] passes are enough;
    [sse_lines] starts the loop with that many. *)
Fixpoint while_newline (fuel : nat) (buffer : str) : scan :=
  match fuel with
  | O => Pending buffer
  | S fuel' =>
    if str_contains NL buffer then
      let '(line, buffer') := split1 NL buffer in
      match handle_line line with
      | Some result => Found result
      | None => while_newline fuel' buffer'
      end
    else Pending buffer
  end.

Definition sse_lines (buffer : str) : scan := while_newline (length buffer) buffer.

(** [async for chunk in response.aiter_bytes(): buffer += chunk.decode(...)]
    over the chunks that arrive, from a buffer.  The result is the object
    returned from inside the loop, if any, with the chunks pulled off the
    stream up to that point. *)
Fixpoint aiter_bytes (stream : list bytes) (buffer : str) : option json * list bytes :=
  match stream with
  | [] => (None, [])
  | chunk :: more =>
    let buffer := buffer ++ decode_utf8_ignore chunk in
    match sse_lines buffer with
    | Found result => (Some result, [chunk])
    | Pending buffer' =>
      let '(r, pulled) := aiter_bytes more buffer' in (r, chunk :: pulled)
    end
  end.

(** The same loop over text that is already decoded. *)
Fixpoint aiter_text (stream : list str) (buffer : str) : option json * nat :=
  match stream with
  | [] => (None, O)
  | chunk :: more =>
    match sse_lines (buffer ++ chunk) with
    | Found result => (Some result, 1)
    | Pending buffer' =>
      let '(r, n) := aiter_text more buffer' in (r, S n)
    end
  end.

(** *** The decoder as the specification words it *)

(** [s.split('\n')] *)
Fixpoint split_lines (s : str) : list str :=
  match s with
  | [] => [[]]
  | c :: r =>
    if N.eqb c NL then [] :: split_lines r
    else match split_lines r with
         | l :: ls => (c :: l) :: ls
         | [] => [[c]]
         end
  end.

(** The newline-terminated lines of a text: every piece but the last. *)
Definition complete_lines (s : str) : list str := removelast (split_lines s).

(** The text after the last newline. *)
Definition residue (s : str) : str := List.last (split_lines s) [].

(** A JSON object with a ['jsonrpc'] key. *)
Definition is_jsonrpc (j : json) : bool := is_dict j && dict_has (py "jsonrpc") j.

(** Strip each line, keep the ['data: '] lines, take their payloads, drop
    the empty ones and the sentinel, parse (skipping failures), keep the
    JSON-RPC objects. *)
Definition frames (ls : list str) : list json :=
  filter (fun j => is_jsonrpc j = true)
    (omap json_loads
       (filter (fun p => p <> [] /\ p <> done_sentinel)
          (map (drop 6)
             (filter (fun l => startswith data_prefix l = true)
                (map strip ls))))).

(** The first such object among the lines of a text. *)
Definition first_frame (ls : list str) : option json := head (frames ls).

(** The text accumulated from the first [k] chunks of a stream. *)
Definition accumulated (stream : list str) (k : nat) : str := concat (take k stream).

End Decoder.

(** ** The session manager (bridge.py, lines 45-103) *)

(** The globals once [http_client] is assigned. *)
Definition with_client (st : bridge) : bridge :=
  {| http_client := true; session_id := session_id st; wire := wire st |}.

(** [get_http_client]: creates the client on first use. *)
Definition get_http_client : M unit := fun st => (Return tt, with_client st).

(** A state the bridge can be in: the stored token is never the empty
    string. *)
Definition token_ok (st : bridge) : Prop := session_id st <> Some [].

(** [get_or_create_session] from the acquisition of [session_lock] up to
    [await client.post(...)]: either the early [return session_id], or the
    handshake request goes out. *)
Definition session_enter (st : bridge) : (str + request) * bridge :=
  match session_id st with
  | Some sid => (inl sid, st)
  | None =>
    let '(_, st1) := get_http_client st in
    (inr handshake, emit (Posted handshake) st1)
  end.

(** [get_or_create_session] from the completion of the POST to the release
    of the lock: [raise_for_status], then the token from the response header
    or the default. *)
Definition session_resume (rp : reply) (st : bridge) : result str * bridge :=
  match rp with
  | Refused detail => (Raise (TransportError detail), st)
  | Answered r =>
    match raise_for_status r with
    | Raise e => (Raise e, st)
    | Return _ =>
      let sid := headers_get session_header (headers r) in
      let sid := if truthy sid then default [] sid else default_session in
      (Return sid, set_session (Some sid) st)
    end
  end.

Section Gateway.

Variable json_loads : str -> option json.

(** The upstream server: its answer to a POST, given the traffic before it. *)
Variable upstream : list event -> request -> reply.

(** [str(e)], the text of an exception. *)
Variable exn_text : exn -> str.

(** [get_or_create_session] run by one caller without interleaving. *)
Definition get_or_create_session : M str :=
  fun st =>
    match session_enter st with
    | (inl sid, st') => (Return sid, st')
    | (inr q, st') => session_resume (upstream (wire st) q) st'
    end.

(** [client.stream("POST", "/mcp", json=body, headers=headers)] *)
Definition client_stream (q : request) : M response :=
  fun st =>
    match upstream (wire st) q with
    | Refused detail => (Raise (TransportError detail), emit (Posted q) st)
    | Answered r => (Return r, emit (Posted q) st)
    end.

(** The request [handle_jsonrpc] forwards: the inbound body, with the
    session header when [session_id] is truthy. *)
Definition forwarded (sid : option str) (body : json) : request :=
  {| req_headers := base_headers ++
                    (if truthy sid then [(session_header, default [] sid)] else []);
     req_json := body |}.

(** The [try] block of [handle_jsonrpc], lines 344-364: the method and id
    of the body, the session unless the method is ["initialize"], the
    client, and the headers.  It yields [request_id] and the request to
    forward. *)
Definition prepare (body : json) : M (json * request) :=
  method <- lift (py_get body (py "method")) ;;
  request_id <- lift (py_get body (py "id")) ;;
  (if negb (is_initialize method)
   then (_ <- get_or_create_session ;; ret tt)
   else ret tt) ;;;
  get_http_client ;;;
  sid <- read_session ;;
  ret (request_id, forwarded sid body).

(** Lines 367-411: the streamed POST, the 202 acknowledgement, the decode
    loop and the fallback error. *)
Definition relay (request_id : json) (q : request) : M JSONResponse :=
  response <- client_stream q ;;
  lift (raise_for_status response) ;;;
  if (status_code response =? 202)%Z then
    ret {| content := ack_envelope request_id; http_status := 200 |}
  else
    let '(found, pulled) := aiter_bytes json_loads (chunks response) [] in
    tell (map Pulled pulled) ;;;
    match found with
    | Some result => ret {| content := result; http_status := 200 |}
    | None =>
      match broken response with
      | Some detail => raise (TransportError detail)
      | None => ret {| content := error_envelope request_id no_response_message;
                       http_status := 500 |}
      end
    end.

(** The [try] block after [body = await request.json()]. *)
Definition try_block (body : json) : M JSONResponse :=
  p <- prepare body ;;
  relay (fst p) (snd p).

(** ["id": body.get("id") if 'body' in locals() else None] followed by the
    construction of the error response, in either [except] clause.  [body]
    is [None] when [request.json()] raised before the assignment. *)
Definition except_clause (body : option json) (e : exn) : result JSONResponse :=
  match (match body with
         | Some b => py_get b (py "id")
         | None => Return JNull
         end) with
  | Raise e' => Raise e'
  | Return request_id =>
    Return {| content := error_envelope request_id
                           ((if is_HTTPStatusError e then server_error_prefix
                             else internal_error_prefix) ++ exn_text e);
              http_status := 500 |}
  end.

(** [handle_jsonrpc] on a request whose body is the text [raw]:
    [request.json()] is [json.loads] of the body and raises when it is not
    JSON, before [body] is bound; any exception of the [try] block goes to
    one of the two [except] clauses, and an exception raised there leaves the
    handler. *)
Definition handle_jsonrpc (raw : str) : M JSONResponse :=
  fun st =>
    match json_loads raw with
    | None => (except_clause None JSONDecodeError, st)
    | Some body =>
      match try_block body st with
      | (Return resp, st') => (Return resp, st')
      | (Raise e, st') => (except_clause (Some body) e, st')
      end
    end.

End Gateway.

(** ** Concurrent callers of [get_or_create_session]

    The bridge runs on one asyncio event loop: a coroutine runs without
    interruption between two suspension points.  [get_or_create_session]
    suspends where it waits for [session_lock] and at
    [await client.post(...)]; [session_enter] and [session_resume] are the
    two uninterrupted stretches.  The scheduler and the upstream are not
    constrained: a move names the caller that runs next and, for the end of a
    POST, what came back. *)

Inductive task : Type :=
| Waiting                       (* at [async with session_lock] *)
| InFlight                      (* holds the lock, awaits the POST *)
| Finished (r : result str).    (* returned or raised, lock released *)

Record system : Type :=
  { globals : bridge; session_lock : bool; tasks : list task }.

Inductive move : Type :=
| Enter (i : nat)
| Reply (i : nat) (rp : reply).

Definition step (m : move) (s : system) : option system :=
  match m with
  | Enter i =>
    match tasks s !! i with
    | Some Waiting =>
      if session_lock s then None
      else
        match session_enter (globals s) with
        | (inl sid, g) =>
          Some {| globals := g; session_lock := false;
                  tasks := <[i := Finished (Return sid)]> (tasks s) |}
        | (inr _, g) =>
          Some {| globals := g; session_lock := true;
                  tasks := <[i := InFlight]> (tasks s) |}
        end
    | _ => None
    end
  | Reply i rp =>
    match tasks s !! i with
    | Some InFlight =>
      let '(r, g) := session_resume rp (globals s) in
      Some {| globals := g; session_lock := false;
              tasks := <[i := Finished r]> (tasks s) |}
    | _ => None
    end
  end.

Fixpoint exec (ms : list move) (s : system) : option system :=
  match ms with
  | [] => Some s
  | m :: ms' => match step m s with
                | Some s' => exec ms' s'
                | None => None
                end
  end.

(** [n] callers about to call [get_or_create_session]. *)
Definition spawn (g : bridge) (n : nat) : system :=
  {| globals := g; session_lock := false; tasks := replicate n Waiting |}.

Definition is_finished (t : task) : bool :=
  match t with Finished _ => true | _ => false end.

Definition all_finished (s : system) : bool := forallb is_finished (tasks s).

(** A reply that passes [raise_for_status]. *)
Definition accepted (rp : reply) : bool :=
  match rp with Answered r => is_success r | Refused _ => false end.

(** The first POST of the run to complete, if any, is accepted. *)
Fixpoint first_reply_accepted (ms : list move) : bool :=
  match ms with
  | [] => true
  | Enter _ :: ms' => first_reply_accepted ms'
  | Reply _ rp :: _ => accepted rp
  end.

(** The three stages of a run in which the first handshake is accepted:
    nobody has entered yet; caller [i] holds the lock with the one handshake
    in flight; the token [tok] is stored. *)
Definition in_flight (g : bridge) (n : nat) (s : system) : Prop :=
  exists i, i < n
    /\ s = {| globals := emit (Posted handshake) (with_client g);
              session_lock := true;
              tasks := <[i := InFlight]> (replicate n Waiting) |}.

Definition settled (g : bridge) (n : nat) (tok : str) (s : system) : Prop :=
  globals s = set_session (Some tok) (emit (Posted handshake) (with_client g))
  /\ session_lock s = false
  /\ length (tasks s) = n
  /\ Forall (fun t => t = Waiting \/ t = Finished (Return tok)) (tasks s).

(** The lock discipline: a caller is in flight only while the lock is held,
    at most one is, no token is stored meanwhile, and every token handed out
    is the stored one. *)
Record lock_inv (s : system) : Prop :=
  { inv_idle : session_lock s = false -> forall i, tasks s !! i <> Some InFlight;
    inv_held : session_lock s = true -> session_id (globals s) = None;
    inv_unique : forall i j,
        tasks s !! i = Some InFlight -> tasks s !! j = Some InFlight -> i = j;
    inv_busy : session_lock s = true -> exists i, tasks s !! i = Some InFlight;
    inv_token : forall i t,
        tasks s !! i = Some (Finished (Return t)) -> session_id (globals s) = Some t }.

(** The moves a caller still has to make. *)
Definition weight (t : task) : nat :=
  match t with Waiting => 2 | InFlight => 1 | Finished _ => 0 end.

Definition remaining (s : system) : nat := sum_list (map weight (tasks s)).

(** ** The per-method handlers and the health probe
       (bridge.py, lines 106-335 and 435-452)

    [fastmcp_request] and the handlers built on it address flat endpoints
    ([/tools/list], [/tools/call], ...) through the same client.  They use
    neither [session_id] nor the [/mcp] stream; the calls they make are kept
    in a log of their own beside the globals. *)

(** [client.post(endpoint, json=...)] or [client.get(endpoint)]. *)
Inductive verb : Type := GET | POST.

Record call : Type :=
  { call_verb : verb; call_endpoint : str; call_json : option json }.

(** The globals and the calls made to the flat endpoints so far. *)
Record hub : Type := { core : bridge; calls : list call }.

Definition hub_boot : hub := {| core := boot; calls := [] |}.

(** [isinstance(j, list)] *)
Definition is_list (j : json) : bool :=
  match j with JList _ => true | _ => false end.

(** [obj[k]], which the source only evaluates under [k in obj]. *)
Definition subscript (obj : json) (k : str) : json :=
  match obj with
  | JDict d => default JNull (dict_lookup k d)
  | _ => JNull
  end.

(** [obj.get(k, dflt)] *)
Definition py_get_or (obj : json) (k : str) (dflt : json) : result json :=
  match obj with
  | JDict d => Return (default dflt (dict_lookup k d))
  | _ => Raise AttributeError
  end.

(** What [for x in j] runs over: the elements of a list, the characters of
    a string, the keys of a dict; [None] is the [TypeError] of a value that
    is not iterable. *)
Definition py_iter (j : json) : option (list json) :=
  match j with
  | JList l => Some l
  | JStr s => Some (map (fun c => JStr [c]) s)
  | JDict d => Some (map (fun kv => JStr (fst kv)) d)
  | JNull | JBool _ | JInt _ | JFloat _ => None
  end.

Definition default_schema : json :=
  JDict [(py "type", JStr (py "object"));
         (py "properties", JDict []);
         (py "required", JList [])].

(** [{"content": [{"type": "text", "text": text}]}] *)
Definition text_content (text : str) : json :=
  JDict [(py "content",
          JList [JDict [(py "type", JStr (py "text")); (py "text", JStr text)]])].

(** The same with ["isError": True]. *)
Definition error_content (text : str) : json :=
  JDict [(py "content",
          JList [JDict [(py "type", JStr (py "text")); (py "text", JStr text)]]);
         (py "isError", JBool true)].

(** [{"contents": [{"uri": uri, "mimeType": "text/plain", "text": text}]}] *)
Definition text_contents (uri : json) (text : str) : json :=
  JDict [(py "contents",
          JList [JDict [(py "uri", uri);
                        (py "mimeType", JStr (py "text/plain"));
                        (py "text", JStr text)]])].

(** [{"messages": [{"role": "user", "content": {"type": "text", "text": text}}]}] *)
Definition text_messages (text : str) : json :=
  JDict [(py "messages",
          JList [JDict [(py "role", JStr (py "user"));
                        (py "content",
                         JDict [(py "type", JStr (py "text")); (py "text", JStr text)])]])].

(** The result of [handle_initialize]. *)
Definition initialize_result (name version : json) : json :=
  JDict [(py "protocolVersion", JStr (py "2024-11-05"));
         (py "capabilities",
          JDict [(py "tools", JDict []); (py "resources", JDict []); (py "prompts", JDict [])]);
         (py "serverInfo", JDict [(py "name", name); (py "version", version)])].

Definition default_name : json := JStr (py "FastMCP Bridge").
Definition default_version : json := JStr (py "1.0.0").

(** [{key: value}] *)
Definition singleton (key : str) (value : json) : json := JDict [(key, value)].

Section Rest.

(** Whether the float read from a literal is zero (its truth value). *)
Variable float_is_zero : str -> bool.

(** [str(x)] for a JSON value and for an exception. *)
Variable py_str : json -> str.
Variable exn_text : exn -> str.

(** [response.json()] ([None] when it raises) and [response.text]. *)
Variable body_json : response -> option json.
Variable body_text : response -> str.

(** The upstream's answer to a call on a flat endpoint, given the calls
    before it. *)
Variable rest_upstream : list call -> call -> reply.

(** The configured upstream address. *)
Variable FASTMCP_SERVER_URL : str.

(** The truth value of a JSON value, as in [x or y]. *)
Definition json_truthy (j : json) : bool :=
  match j with
  | JNull => false
  | JBool b => b
  | JInt z => negb (z =? 0)%Z
  | JFloat lit => negb (float_is_zero lit)
  | JStr s => negb (str_eqb s [])
  | JList l => match l with [] => false | _ => true end
  | JDict d => match d with [] => false | _ => true end
  end.

(** [a or b] *)
Definition py_or (a b : json) : json := if json_truthy a then a else b.

(** [data or {}] for an [Optional[Dict]]. *)
Definition or_empty (data : option json) : json :=
  match data with
  | Some j => py_or j (JDict [])
  | None => JDict []
  end.

(** [client.post(endpoint, json=data or {})] when [method == "POST"],
    [client.get(endpoint)] for any other method. *)
Definition request_call (endpoint method : str) (data : option json) : call :=
  if str_eqb method (py "POST")
  then {| call_verb := POST; call_endpoint := endpoint; call_json := Some (or_empty data) |}
  else {| call_verb := GET; call_endpoint := endpoint; call_json := None |}.

(** [fastmcp_request]: one call through the shared client; a non-2xx
    answer raises; the body is returned parsed, or as text when parsing
    fails.  Both [except] clauses log and re-raise. *)
Definition fastmcp_request (endpoint method : str) (data : option json)
  : hub -> result json * hub :=
  fun st =>
    let c := request_call endpoint method data in
    let st' := {| core := with_client (core st); calls := calls st ++ [c] |} in
    match rest_upstream (calls st) c with
    | Refused detail => (Raise (TransportError detail), st')
    | Answered response =>
      match raise_for_status response with
      | Raise e => (Raise e, st')
      | Return _ =>
        match body_json response with
        | Some result => (Return result, st')
        | None => (Return (JStr (body_text response)), st')
        end
      end
    end.

(** [handle_initialize]: the server info, with defaults when the call
    fails (bare [except]) or the answer is not a dict. *)
Definition handle_initialize (params : json) : hub -> result json * hub :=
  fun st =>
    match fastmcp_request (py "/info") (py "GET") None st with
    | (Return (JDict server_info), st') =>
      (Return (initialize_result
                 (default default_name (dict_lookup (py "name") server_info))
                 (default default_version (dict_lookup (py "version") server_info))),
       st')
    | (Return _, st') => (Return (initialize_result default_name default_version), st')
    | (Raise _, st') => (Return (initialize_result default_name default_version), st')
    end.

(** One tool in standard form. *)
Definition mcp_tool (tool : list (str * json)) : json :=
  JDict [(py "name", default (JStr (py "unknown")) (dict_lookup (py "name") tool));
         (py "description", default (JStr []) (dict_lookup (py "description") tool));
         (py "inputSchema",
          py_or (py_or (default JNull (dict_lookup (py "inputSchema") tool))
                       (default JNull (dict_lookup (py "parameters") tool)))
                default_schema)].

(** [for tool in tools: if isinstance(tool, dict): mcp_tools.append(...)] *)
Fixpoint collect_tools (tools : list json) : list json :=
  match tools with
  | [] => []
  | JDict tool :: rest => mcp_tool tool :: collect_tools rest
  | _ :: rest => collect_tools rest
  end.

(** The [try] block of [handle_tools_list] after the call: the choice of
    [tools] and the loop.  [None] is the [TypeError] of a [tools] that cannot
    be iterated. *)
Definition standard_tools (result : json) : option json :=
  let tools := if is_dict result && dict_has (py "tools") result
               then subscript result (py "tools")
               else if is_list result then result
               else JList [] in
  match py_iter tools with
  | Some items => Some (singleton (py "tools") (JList (collect_tools items)))
  | None => None
  end.

(** What [handle_tools_list] returns for an answer of the upstream: the
    [except] clause turns the [TypeError] into the empty list. *)
Definition tools_answer (result : json) : json :=
  default (singleton (py "tools") (JList [])) (standard_tools result).

(** [handle_tools_list]: any exception gives the empty list. *)
Definition handle_tools_list (params : json) : hub -> result json * hub :=
  fun st =>
    match fastmcp_request (py "/tools/list") (py "POST") (Some (JDict [])) st with
    | (Return result, st') => (Return (tools_answer result), st')
    | (Raise _, st') => (Return (singleton (py "tools") (JList [])), st')
    end.

(** A tool in standard form: exactly a name, a description and an input
    schema that is not empty. *)
Definition standard_tool (t : json) : Prop :=
  exists name description schema,
    t = JDict [(py "name", name); (py "description", description);
               (py "inputSchema", schema)]
    /\ json_truthy schema = true.

(** [handle_tools_call]: [params.get] comes before the [try]; inside it an
    exception becomes an error result. *)
Definition handle_tools_call (params : json) : hub -> result json * hub :=
  fun st =>
    match py_get params (py "name") with
    | Raise e => (Raise e, st)
    | Return tool_name =>
      match py_get_or params (py "arguments") (JDict []) with
      | Raise e => (Raise e, st)
      | Return arguments =>
        match fastmcp_request (py "/tools/call") (py "POST")
                (Some (JDict [(py "name", tool_name); (py "arguments", arguments)])) st with
        | (Return result, st') =>
          (Return (if is_dict result && dict_has (py "content") result
                   then result
                   else text_content (py_str result)), st')
        | (Raise e, st') => (Return (error_content (py "Error: " ++ exn_text e)), st')
        end
      end
    end.

(** The shape shared by [handle_resources_list] and [handle_prompts_list]. *)
Definition listing (key : str) (result : json) : json :=
  if is_dict result && dict_has key result then result
  else if is_list result then singleton key result
  else singleton key (JList []).

Definition handle_resources_list (params : json) : hub -> result json * hub :=
  fun st =>
    match fastmcp_request (py "/resources/list") (py "POST") (Some (JDict [])) st with
    | (Return result, st') => (Return (listing (py "resources") result), st')
    | (Raise _, st') => (Return (singleton (py "resources") (JList [])), st')
    end.

(** [handle_resources_read]: the [except] clause logs and re-raises. *)
Definition handle_resources_read (params : json) : hub -> result json * hub :=
  fun st =>
    match py_get params (py "uri") with
    | Raise e => (Raise e, st)
    | Return uri =>
      match fastmcp_request (py "/resources/read") (py "POST")
              (Some (JDict [(py "uri", uri)])) st with
      | (Return result, st') =>
        (Return (if is_dict result && dict_has (py "contents") result
                 then result
                 else text_contents uri (py_str result)), st')
      | (Raise e, st') => (Raise e, st')
      end
    end.

Definition handle_prompts_list (params : json) : hub -> result json * hub :=
  fun st =>
    match fastmcp_request (py "/prompts/list") (py "POST") (Some (JDict [])) st with
    | (Return result, st') => (Return (listing (py "prompts") result), st')
    | (Raise _, st') => (Return (singleton (py "prompts") (JList [])), st')
    end.

(** [handle_prompts_get]: the [except] clause logs and re-raises. *)
Definition handle_prompts_get (params : json) : hub -> result json * hub :=
  fun st =>
    match py_get params (py "name") with
    | Raise e => (Raise e, st)
    | Return name =>
      match py_get_or params (py "arguments") (JDict []) with
      | Raise e => (Raise e, st)
      | Return arguments =>
        match fastmcp_request (py "/prompts/get") (py "POST")
                (Some (JDict [(py "name", name); (py "arguments", arguments)])) st with
        | (Return result, st') =>
          (Return (if is_dict result && dict_has (py "messages") result
                   then result
                   else text_messages (py_str result)), st')
        | (Raise e, st') => (Raise e, st')
        end
      end
    end.

(** [health_check]: a GET of [/] through the shared client. *)
Definition health_check : hub -> JSONResponse * hub :=
  fun st =>
    let c := {| call_verb := GET; call_endpoint := py "/"; call_json := None |} in
    let st' := {| core := with_client (core st); calls := calls st ++ [c] |} in
    let unhealthy (e : exn) :=
        {| content := JDict [(py "status", JStr (py "unhealthy"));
                             (py "error", JStr (exn_text e))];
           http_status := 503 |} in
    match rest_upstream (calls st) c with
    | Refused detail => (unhealthy (TransportError detail), st')
    | Answered response =>
      match raise_for_status response with
      | Raise e => (unhealthy e, st')
      | Return _ =>
        ({| content := JDict [(py "status", JStr (py "healthy"));
                              (py "fastmcp_server", JStr FASTMCP_SERVER_URL);
                              (py "bridge", JStr (py "running"))];
            http_status := 200 |}, st')
      end
    end.

End Rest.

(** What a handler of the flat endpoints may change: at most one call is
    added, and neither [session_id] nor the [/mcp] traffic is touched. *)
Definition quiet (st st' : hub) : Prop :=
  session_id (core st') = session_id (core st)
  /\ wire (core st') = wire (core st)
  /\ exists cs, length cs <= 1 /\ calls st' = calls st ++ cs.

(** ** Measures used by the properties below *)

(** The POSTs among some traffic. *)
Fixpoint posted (w : list event) : nat :=
  match w with
  | [] => 0
  | Posted _ :: r => S (posted r)
  | Pulled _ :: r => posted r
  end.


(** 1 for a caller whose call raised. *)
Definition raised (t : task) : nat :=
  match t with Finished (Raise _) => 1 | _ => 0 end.

(** The handshakes a state accounts for: one per caller that raised, the
    one in flight, and the one that stored the token. *)
Definition accounted (s : system) : nat :=
  sum_list (map raised (tasks s))
  + (if session_lock s then 1 else 0)
  + (match session_id (globals s) with Some _ => 1 | None => 0 end).

(** ** Sample traffic

    Inputs for the worked examples.  In the literals below a single quote
    stands for a double quote and [$] for a newline. *)
Module Sample.

Definition lit_char (c : N) : N :=
  if (c =? 39)%N then 34%N else if (c =? 36)%N then 10%N else c.

Definition text (s : string) : str := map lit_char (py s).

Definition octets (s : string) : bytes :=
  map (fun b => default b (Byte.of_N (lit_char (Byte.to_N b)))) (ascii_bytes s).

(** Inbound bodies. *)
Definition tools_list_call : str :=
  text "{'jsonrpc':'2.0','id':7,'method':'tools/list','params':{}}".
Definition batch_call : str := text "[]".

Definition tools_list_body : json :=
  JDict [(py "jsonrpc", JStr (py "2.0")); (py "id", JInt 7);
         (py "method", JStr (py "tools/list")); (py "params", JDict [])].
Definition initialize_body : json :=
  JDict [(py "jsonrpc", JStr (py "2.0")); (py "id", JInt 1);
         (py "method", JStr (py "initialize")); (py "params", JDict [])].

(** Upstream frames. *)
Definition tools_frame : bytes :=
  octets "data: {'jsonrpc':'2.0','id':7,'result':{'tools':[]}}$".
Definition tools_result : json :=
  JDict [(py "jsonrpc", JStr (py "2.0")); (py "id", JInt 7);
         (py "result", JDict [(py "tools", JList [])])].

(** A frame split over two chunks, behind an [event:] line, and a further
    frame that is never needed. *)
Definition split_stream : list bytes :=
  [octets "event: message$da";
   octets "ta: {'jsonrpc':'2.0','id':7,'result':{'tools':[]}}$$";
   octets "data: {'jsonrpc':'2.0','id':8,'result':{}}$"].


(** The frame arrives without its final newline. *)
Definition unterminated_stream : list bytes :=
  [octets ": hello$"; octets "data: {'jsonrpc':'2.0','id':7,'result':{'tools':[]}}"].
Definition unterminated_tail : str :=
  text "data: {'jsonrpc':'2.0','id':7,'result':{'tools':[]}}".

(** [data: {"jsonrpc":"2.0","id":"é"}] and its two halves, cut inside the
    two-byte encoding of the letter. *)
Definition accent_head : bytes := octets "data: {'jsonrpc':'2.0','id':'" ++ [Byte.xc3].
Definition accent_tail : bytes := [Byte.xa9] ++ octets "'}$".
Definition accent_frame : bytes := accent_head ++ accent_tail.
Definition accent_result (id : str) : json :=
  JDict [(py "jsonrpc", JStr (py "2.0")); (py "id", JStr id)].

Definition token : str := py "abc123".

Definition ok (body : list bytes) : response :=
  {| status_code := 200; headers := [(py "mcp-session-id", token)];
     chunks := body; broken := None |}.

Definition plain (status : Z) : response :=
  {| status_code := status; headers := []; chunks := []; broken := None |}.

(** An upstream that answers every POST with status 200, a session header
    and the given body. *)
Definition serving (body : list bytes) : list event -> request -> reply :=
  fun _ _ => Answered (ok body).


(** An upstream that is unavailable for the first POST only. *)
Definition recovering : list event -> request -> reply :=
  fun w _ => match w with
             | [] => Answered (plain 503)
             | _ => Answered (ok [])
             end.

(** [str(e)] as far as the examples need it. *)
Definition describe (e : exn) : str :=
  match e with
  | JSONDecodeError => py "Expecting value"
  | AttributeError => py "object has no attribute 'get'"
  | HTTPStatusError _ => py "Server error"
  | TransportError d => d
  end.

(** The globals after an accepted handshake from [boot]. *)
Definition joined : bridge :=
  {| http_client := true; session_id := Some token; wire := [Posted handshake] |}.

(** The globals after [get_http_client] alone. *)
Definition started : bridge :=
  {| http_client := true; session_id := None; wire := [] |}.

(** Three callers: one enters and shakes hands, then the others enter. *)
Definition calm_run : list move :=
  [Enter 1; Reply 1 (Answered (ok [])); Enter 0; Enter 2].

(** Where [calm_run] ends. *)
Definition calm_end : system :=
  {| globals := joined; session_lock := false;
     tasks := replicate 3 (Finished (Return token)) |}.

(** Two callers; the first handshake is answered with 503. *)
Definition rough_run : list move :=
  [Enter 0; Reply 0 (Answered (plain 503)); Enter 1; Reply 1 (Answered (ok []))].

End Sample.

(** Instances of the parameters of the flat-endpoint handlers, and answers
    of an upstream that serves them. *)
Module SampleRest.

(** The float of a literal is zero when its mantissa has no other digit
    (underflow aside). *)
Fixpoint zero_mantissa (lit : str) : bool :=
  match lit with
  | [] => true
  | c :: r =>
    if ((c =? 101) || (c =? 69))%N then true
    else if ((49 <=? c) && (c <=? 57))%N then false
    else if (c =? 78)%N || (c =? 73)%N then false
    else zero_mantissa r
  end.

(** [str(x)] on scalars; containers are shown by their kind. *)
Definition show (j : json) : str :=
  match j with
  | JNull => py "None"
  | JBool true => py "True"
  | JBool false => py "False"
  | JInt z => py (pretty z)
  | JFloat lit => lit
  | JStr s => s
  | JList _ => py "[...]"
  | JDict _ => py "{...}"
  end.

(** [response.text] and [response.json()] of a UTF-8 body. *)
Definition text_of (r : response) : str := decode_utf8_ignore (concat (chunks r)).
Definition json_of (r : response) : option json := RefJson.loads (text_of r).

Definition url : str := py "https://upstream.example".

Definition answer (status : Z) (body : string) : reply :=
  Answered {| status_code := status; headers := [];
              chunks := [Sample.octets body]; broken := None |}.

(** An upstream that answers every call with the same body. *)
Definition always (status : Z) (body : string) : list call -> call -> reply :=
  fun _ _ => answer status body.

(** An upstream that cannot be reached. *)
Definition down : list call -> call -> reply :=
  fun _ _ => Refused (py "connection refused").

Definition tools_body : string :=
  "{'tools':[{'name':'sum','parameters':{'type':'object'}},7,{'description':'d'}]}".

Definition call_params : json :=
  JDict [(py "name", JStr (py "sum")); (py "arguments", JDict [(py "a", JInt 1)])].

Definition read_params : json := JDict [(py "uri", JStr (py "file:///a"))].


(** A 200 answer whose stream breaks after a keep-alive. *)
Definition cut_short : response :=
  {| status_code := 200; headers := [(py "mcp-session-id", Sample.token)];
     chunks := [Sample.octets ": ping$"]; broken := Some (py "peer closed connection") |}.

Definition breaking : list event -> request -> reply := fun _ _ => Answered cut_short.


(** One caller has entered and waits for the answer to its handshake. *)
Definition waiting_for_answer : system :=
  {| globals := emit (Posted handshake) (with_client boot);
     session_lock := true;
     tasks := [Waiting; InFlight; Waiting] |}.

(** A caller served from the stored token. *)
Definition served_late : system :=
  {| globals := Sample.joined; session_lock := false;
     tasks := [Finished (Return Sample.token); Waiting] |}.

(** Where [Sample.rough_run] ends. *)
Definition rough_end : system :=
  {| globals := {| http_client := true; session_id := Some Sample.token;
                   wire := [Posted handshake; Posted handshake] |};
     session_lock := false;
     tasks := [Finished (Raise (HTTPStatusError 503)); Finished (Return Sample.token)] |}.

End SampleRest.

(** * Properties *)

(** ** Text *)

Lemma str_eqb_eq (a b : str) : str_eqb a b = true <-> a = b.
Proof.
  revert b; induction a as [|x a IH]; intros [|y b]; simpl; try (split; congruence).
  rewrite andb_true_iff, N.eqb_eq, IH. split.
  - intros [-> ->]; reflexivity.
  - intros [= -> ->]; split; reflexivity.
Qed.

Lemma str_eqb_refl (a : str) : str_eqb a a = true.
Proof. apply str_eqb_eq; reflexivity. Qed.

Lemma str_eqb_neq (a b : str) : str_eqb a b = false <-> a <> b.
Proof.
  rewrite <- str_eqb_eq. destruct (str_eqb a b); split; congruence.
Qed.

Lemma split_lines_nonempty (s : str) : split_lines s <> [].
Proof.
  induction s as [|c r IH]; cbn [split_lines]; [congruence|].
  destruct (N.eqb c NL); [congruence|].
  destruct (split_lines r); congruence.
Qed.

Lemma split_lines_no_newline (s : str) :
  str_contains NL s = false -> split_lines s = [s].
Proof.
  unfold str_contains.
  induction s as [|c r IH]; cbn [split_lines existsb]; [reflexivity|].
  rewrite N.eqb_sym. intros H. apply orb_false_iff in H as [Hc Hr].
  rewrite Hc, (IH Hr). reflexivity.
Qed.

Lemma split1_newline (s : str) :
  str_contains NL s = true ->
  split_lines s = (split1 NL s).1 :: split_lines (split1 NL s).2
  /\ length (split1 NL s).2 < length s.
Proof.
  unfold str_contains.
  induction s as [|c r IH]; cbn [split_lines existsb split1]; [congruence|].
  rewrite (N.eqb_sym NL c). destruct (N.eqb c NL) eqn:Hc; cbn [orb fst snd length].
  - intros _. split; [reflexivity | lia].
  - intros H. destruct (IH H) as [E L]. destruct (split1 NL r) as [a b]; cbn [fst snd] in *.
    rewrite E. split; [reflexivity | lia].
Qed.

Lemma residue_no_newline (s : str) : str_contains NL (residue s) = false.
Proof.
  unfold residue, str_contains.
  induction s as [|c r IH]; cbn [split_lines]; [reflexivity|].
  pose proof (split_lines_nonempty r) as Hne.
  destruct (N.eqb c NL) eqn:Hc.
  - destruct (split_lines r); [congruence | exact IH].
  - destruct (split_lines r) as [|l [|l' ls]]; [congruence| |].
    + cbn [List.last existsb] in *. rewrite (N.eqb_sym NL c), Hc. exact IH.
    + exact IH.
Qed.

Lemma complete_lines_no_newline (s : str) :
  str_contains NL s = false -> complete_lines s = [] /\ residue s = s.
Proof.
  intros H. unfold complete_lines, residue. rewrite (split_lines_no_newline s H).
  split; reflexivity.
Qed.

Lemma complete_lines_newline (s : str) :
  str_contains NL s = true ->
  complete_lines s = (split1 NL s).1 :: complete_lines (split1 NL s).2
  /\ residue s = residue (split1 NL s).2.
Proof.
  intros H. destruct (split1_newline s H) as [E _].
  unfold complete_lines, residue. rewrite E.
  pose proof (split_lines_nonempty (split1 NL s).2).
  destruct (split_lines (split1 NL s).2); [congruence|]. split; reflexivity.
Qed.

(** Appending text only touches the last, unfinished piece. *)
Lemma split_lines_app (x y : str) :
  split_lines (x ++ y) = complete_lines x ++ split_lines (residue x ++ y).
Proof.
  unfold complete_lines, residue.
  induction x as [|c r IH]; [reflexivity|].
  change ((c :: r) ++ y) with (c :: (r ++ y)). cbn [split_lines].
  pose proof (split_lines_nonempty r) as Hne.
  destruct (N.eqb c NL) eqn:Hc.
  - rewrite IH. destruct (split_lines r) as [|l ls]; [congruence|]. reflexivity.
  - rewrite IH. destruct (split_lines r) as [|l [|l' ls]]; [congruence| |].
    + cbn [removelast List.last app split_lines]. rewrite Hc.
      destruct (split_lines (l ++ y)); reflexivity.
    + reflexivity.
Qed.

Lemma complete_lines_app (x y : str) :
  complete_lines (x ++ y) = complete_lines x ++ complete_lines (residue x ++ y).
Proof.
  unfold complete_lines at 1. rewrite split_lines_app.
  pose proof (split_lines_nonempty (residue x ++ y)) as Hne.
  rewrite removelast_app by exact Hne. reflexivity.
Qed.

Lemma last_append {A} (l k : list A) (d : A) :
  k <> [] -> List.last (l ++ k) d = List.last k d.
Proof.
  intros Hk. induction l as [|a l IH]; [reflexivity|].
  change ((a :: l) ++ k) with (a :: (l ++ k)). cbn [List.last].
  destruct (l ++ k) eqn:E; [|exact IH].
  apply app_eq_nil in E as [_ ->]. congruence.
Qed.

Lemma residue_app (x y : str) : residue (x ++ y) = residue (residue x ++ y).
Proof.
  unfold residue at 1. rewrite split_lines_app.
  apply last_append, split_lines_nonempty.
Qed.

(** ** The decode loop against the line-by-line specification *)

Section DecoderFacts.

Variable loads : str -> option json.

Lemma first_frame_nil : first_frame loads [] = None.
Proof. reflexivity. Qed.

(** The pipeline of the specification, one line at a time, is the loop body. *)
Lemma first_frame_cons (l : str) (ls : list str) :
  first_frame loads (l :: ls) =
  match handle_line loads l with Some j => Some j | None => first_frame loads ls end.
Proof.
  unfold first_frame, frames, handle_line. cbn [map].
  rewrite filter_cons. destruct (startswith data_prefix (strip l)) eqn:Hs.
  - rewrite decide_True by reflexivity. cbn [map]. rewrite filter_cons.
    destruct (str_eqb (drop 6 (strip l)) []) eqn:E1.
    { apply str_eqb_eq in E1. rewrite decide_False by (intros [? ?]; congruence).
      reflexivity. }
    destruct (str_eqb (drop 6 (strip l)) done_sentinel) eqn:E2.
    { apply str_eqb_eq in E2. rewrite decide_False by (intros [? ?]; congruence).
      reflexivity. }
    apply str_eqb_neq in E1, E2. rewrite decide_True by (split; assumption).
    cbn [omap list_omap negb andb].
    destruct (loads (drop 6 (strip l))) as [j|]; [|reflexivity].
    rewrite filter_cons. unfold is_jsonrpc.
    destruct (is_dict j && dict_has (py "jsonrpc") j) eqn:E3.
    + rewrite decide_True by reflexivity. reflexivity.
    + rewrite decide_False by congruence. reflexivity.
  - rewrite decide_False by congruence. reflexivity.
Qed.

Lemma first_frame_app (a b : list str) :
  first_frame loads (a ++ b) =
  match first_frame loads a with Some j => Some j | None => first_frame loads b end.
Proof.
  induction a as [|l a IH]; [reflexivity|].
  change ((l :: a) ++ b) with (l :: (a ++ b)). rewrite !first_frame_cons, IH.
  destruct (handle_line loads l); reflexivity.
Qed.


(** A line that is not a ['data: '] line (a comment, a keep-alive, an
    [event:] field, a blank line) is passed over. *)
Lemma handle_line_not_data (l : str) :
  startswith data_prefix (strip l) = false -> handle_line loads l = None.
Proof. unfold handle_line. intros ->. reflexivity. Qed.

Lemma first_frame_not_data (ls : list str) :
  Forall (fun l => startswith data_prefix (strip l) = false) ls ->
  first_frame loads ls = None.
Proof.
  induction 1 as [|l ls Hl _ IH]; [reflexivity|].
  rewrite first_frame_cons, (handle_line_not_data l Hl). exact IH.
Qed.

(** The inner loop returns the first frame among the complete lines of the
    buffer and otherwise keeps the text after the last newline. *)
Lemma while_newline_spec (fuel : nat) (buffer : str) :
  length buffer <= fuel ->
  while_newline loads fuel buffer =
  match first_frame loads (complete_lines buffer) with
  | Some j => Found j
  | None => Pending (residue buffer)
  end.
Proof.
  revert buffer. induction fuel as [|fuel IH]; intros buffer Hlen.
  - destruct buffer; [reflexivity | simpl in Hlen; lia].
  - cbn [while_newline]. destruct (str_contains NL buffer) eqn:Hc.
    + destruct (complete_lines_newline buffer Hc) as [E R].
      destruct (split1_newline buffer Hc) as [_ L].
      destruct (split1 NL buffer) as [line rest]; cbn [fst snd] in *.
      rewrite E, R, first_frame_cons.
      destruct (handle_line loads line); [reflexivity|].
      apply IH. lia.
    + destruct (complete_lines_no_newline buffer Hc) as [-> ->]. reflexivity.
Qed.

Lemma sse_lines_spec (buffer : str) :
  sse_lines loads buffer =
  match first_frame loads (complete_lines buffer) with
  | Some j => Found j
  | None => Pending (residue buffer)
  end.
Proof. apply while_newline_spec. reflexivity. Qed.

Lemma first_frame_residue (x y : str) :
  first_frame loads (complete_lines x) = None ->
  first_frame loads (complete_lines (x ++ y)) =
  first_frame loads (complete_lines (residue x ++ y)).
Proof. intros H. rewrite complete_lines_app, first_frame_app, H. reflexivity. Qed.

(** What the chunk loop returns depends on the stream only through the
    concatenation of its chunks. *)
Lemma aiter_text_result (stream : list str) (buffer : str) :
  str_contains NL buffer = false ->
  (aiter_text loads stream buffer).1 =
  first_frame loads (complete_lines (buffer ++ concat stream)).
Proof.
  revert buffer. induction stream as [|chunk more IH]; intros buffer Hb.
  - cbn [aiter_text concat fst]. rewrite app_nil_r.
    destruct (complete_lines_no_newline buffer Hb) as [-> _]. reflexivity.
  - cbn [aiter_text concat]. rewrite sse_lines_spec, app_assoc.
    destruct (first_frame loads (complete_lines (buffer ++ chunk))) as [j|] eqn:E.
    + cbn [fst]. rewrite complete_lines_app, first_frame_app, E. reflexivity.
    + specialize (IH (residue (buffer ++ chunk)) (residue_no_newline _)).
      destruct (aiter_text loads more (residue (buffer ++ chunk))) as [r n].
      cbn [fst] in *. rewrite IH. symmetry. apply first_frame_residue, E.
Qed.

(** How far the chunk loop reads: it stops at the first chunk that
    completes a frame, and reads everything when there is none. *)
Lemma aiter_text_reads (stream : list str) (buffer : str) :
  str_contains NL buffer = false ->
  match aiter_text loads stream buffer with
  | (Some j, n) =>
    exists k, n = S k /\ k < length stream
      /\ first_frame loads (complete_lines (buffer ++ accumulated stream (S k))) = Some j
      /\ first_frame loads (complete_lines (buffer ++ accumulated stream k)) = None
  | (None, n) =>
    n = length stream
    /\ first_frame loads (complete_lines (buffer ++ concat stream)) = None
  end.
Proof.
  unfold accumulated.
  revert buffer. induction stream as [|chunk more IH]; intros buffer Hb.
  - cbn [aiter_text concat length]. rewrite app_nil_r.
    destruct (complete_lines_no_newline buffer Hb) as [-> _]. split; reflexivity.
  - cbn [aiter_text]. rewrite sse_lines_spec.
    destruct (first_frame loads (complete_lines (buffer ++ chunk))) as [j|] eqn:E.
    + exists 0. cbn [take concat length]. rewrite !app_nil_r.
      destruct (complete_lines_no_newline buffer Hb) as [-> _].
      repeat split; [lia | exact E].
    + specialize (IH (residue (buffer ++ chunk)) (residue_no_newline _)).
      destruct (aiter_text loads more (residue (buffer ++ chunk))) as [[j|] n].
      * destruct IH as (k & -> & Hk & Hj & Hn). exists (S k).
        cbn [take concat length]. rewrite !app_assoc.
        rewrite !(first_frame_residue _ _ E). repeat split; [lia | exact Hj | exact Hn].
      * destruct IH as [-> Hn]. cbn [concat length]. rewrite app_assoc.
        rewrite (first_frame_residue _ _ E). split; [reflexivity | exact Hn].
Qed.

(** The byte loop is the text loop on the chunks decoded one by one. *)
Lemma aiter_bytes_text (stream : list bytes) (buffer : str) :
  aiter_bytes loads stream buffer =
  let '(r, n) := aiter_text loads (map decode_utf8_ignore stream) buffer in
  (r, take n stream).
Proof.
  revert buffer. induction stream as [|chunk more IH]; intros buffer; [reflexivity|].
  cbn [aiter_bytes aiter_text map].
  destruct (sse_lines loads (buffer ++ decode_utf8_ignore chunk)) as [j|b']; [reflexivity|].
  rewrite IH. destruct (aiter_text loads (map decode_utf8_ignore more) b') as [r n].
  reflexivity.
Qed.

End DecoderFacts.

Lemma accumulated_split (stream : list str) (m m' : nat) :
  m <= m' ->
  accumulated stream m' = accumulated stream m ++ concat (drop m (take m' stream)).
Proof.
  intros Hle. unfold accumulated. rewrite <- concat_app.
  rewrite <- (take_drop m (take m' stream)) at 1.
  rewrite take_take. replace (m `min` m') with m by lia. reflexivity.
Qed.

Lemma accumulated_all (stream : list str) (m : nat) :
  length stream <= m -> accumulated stream m = concat stream.
Proof. intros H. unfold accumulated. rewrite take_ge by exact H. reflexivity. Qed.

(** Once the accumulated text holds a frame, reading more does not change
    which frame comes first. *)
Lemma first_frame_monotone (loads : str -> option json) (stream : list str)
      (m m' : nat) (j : json) :
  m <= m' ->
  first_frame loads (complete_lines (accumulated stream m)) = Some j ->
  first_frame loads (complete_lines (accumulated stream m')) = Some j.
Proof.
  intros Hle Hj. rewrite (accumulated_split stream m m' Hle).
  rewrite complete_lines_app, first_frame_app, Hj. reflexivity.
Qed.


Lemma aiter_bytes_exhausted (loads : str -> option json) (stream : list bytes) :
  first_frame loads (complete_lines (concat (map decode_utf8_ignore stream))) = None ->
  aiter_bytes loads stream [] = (None, stream).
Proof.
  intros Hnone. rewrite aiter_bytes_text.
  pose proof (aiter_text_reads loads (map decode_utf8_ignore stream) [] eq_refl) as H.
  destruct (aiter_text loads (map decode_utf8_ignore stream) []) as [[j'|] n].
  - destruct H as (k' & -> & Hk' & Hj' & _). cbn [app] in Hj'.
    rewrite <- (accumulated_all (map decode_utf8_ignore stream)
                  (length (map decode_utf8_ignore stream))) in Hnone by lia.
    rewrite (first_frame_monotone loads _ (S k') _ j') in Hnone; [discriminate| |exact Hj'].
    lia.
  - destruct H as [-> _]. rewrite length_map, take_ge by lia. reflexivity.
Qed.



(** ** The session manager, one caller at a time *)

Lemma token_ok_boot : token_ok boot.
Proof. unfold token_ok; cbn; congruence. Qed.

Lemma truthy_Some (o : option str) :
  truthy o = true -> exists c s, o = Some (c :: s).
Proof. destruct o as [[|c s]|]; cbn; try discriminate. eauto. Qed.

Lemma session_resume_accepted (rp : reply) (st : bridge) :
  accepted rp = true ->
  exists tok, tok <> []
    /\ session_resume rp st = (Return tok, set_session (Some tok) st).
Proof.
  destruct rp as [d|r]; cbn [accepted]; [discriminate|]. intros Hs.
  unfold session_resume, raise_for_status. rewrite Hs.
  destruct (truthy (headers_get session_header (headers r))) eqn:Ht.
  - destruct (truthy_Some _ Ht) as (c & s & ->). exists (c :: s). split; [congruence|reflexivity].
  - exists default_session. split; [discriminate | reflexivity].
Qed.

Lemma session_resume_rejected (rp : reply) (st : bridge) :
  accepted rp = false ->
  exists e, session_resume rp st = (Raise e, st)
    /\ match rp with
       | Refused d => e = TransportError d
       | Answered r => e = HTTPStatusError (status_code r)
       end.
Proof.
  destruct rp as [d|r]; cbn [accepted]; intros Hs.
  - exists (TransportError d). split; reflexivity.
  - exists (HTTPStatusError (status_code r)).
    unfold session_resume, raise_for_status. rewrite Hs. split; reflexivity.
Qed.

Section GatewayFacts.

Variable loads : str -> option json.
Variable upstream : list event -> request -> reply.
Variable exn_text : exn -> str.

Lemma get_or_create_session_cached (st : bridge) (tok : str) :
  session_id st = Some tok ->
  get_or_create_session upstream st = (Return tok, st).
Proof. intros H. unfold get_or_create_session, session_enter. rewrite H. reflexivity. Qed.

Lemma get_or_create_session_fresh (st : bridge) :
  session_id st = None ->
  get_or_create_session upstream st =
  session_resume (upstream (wire st) handshake) (emit (Posted handshake) (with_client st)).
Proof.
  intros H. unfold get_or_create_session, session_enter.
  destruct (session_id st); [discriminate | reflexivity].
Qed.

Lemma get_or_create_session_token (st st' : bridge) (tok : str) :
  token_ok st ->
  get_or_create_session upstream st = (Return tok, st') ->
  tok <> [] /\ session_id st' = Some tok.
Proof.
  intros Hok. destruct (session_id st) as [t|] eqn:E.
  - rewrite (get_or_create_session_cached st t E). intros [= <- <-].
    split; [intros -> ; apply Hok; exact E | exact E].
  - rewrite (get_or_create_session_fresh st E).
    destruct (accepted (upstream (wire st) handshake)) eqn:A.
    + destruct (session_resume_accepted _ (emit (Posted handshake) (with_client st)) A)
        as (t & Ht & ->).
      intros [= <- <-]. split; [exact Ht | reflexivity].
    + destruct (session_resume_rejected _ (emit (Posted handshake) (with_client st)) A)
        as (e & -> & _).
      discriminate.
Qed.

(** Whatever a call does, a token that is set stays as it is. *)
Lemma get_or_create_session_keeps (st : bridge) (tok : str) :
  session_id st = Some tok ->
  session_id (get_or_create_session upstream st).2 = Some tok.
Proof. intros H. rewrite (get_or_create_session_cached st tok H). exact H. Qed.

(** *** The gateway, phase by phase *)


Lemma relay_stream (request_id : json) (q : request) (st : bridge) (r : response) :
  upstream (wire st) q = Answered r ->
  is_success r = true ->
  status_code r <> 202%Z ->
  relay loads upstream request_id q st =
  let '(found, pulled) := aiter_bytes loads (chunks r) [] in
  let st' := emit_all (map Pulled pulled) (emit (Posted q) st) in
  match found with
  | Some result => (Return {| content := result; http_status := 200 |}, st')
  | None =>
    match broken r with
    | Some detail => (Raise (TransportError detail), st')
    | None => (Return {| content := error_envelope request_id no_response_message;
                         http_status := 500 |}, st')
    end
  end.
Proof.
  intros Hup Hs H202. unfold relay, bind, client_stream, lift, raise_for_status.
  rewrite Hup, Hs. apply Z.eqb_neq in H202. rewrite H202.
  destruct (aiter_bytes loads (chunks r) []) as [[j|] pulled]; cbn.
  - reflexivity.
  - destruct (broken r); reflexivity.
Qed.



(** What [prepare] hands over when it gets through. *)
Lemma prepare_Return (body : json) (st st1 : bridge) (request_id : json) (q : request) :
  prepare upstream body st = (Return (request_id, q), st1) ->
  py_get body (py "id") = Return request_id
  /\ q = forwarded (session_id st1) body
  /\ http_client st1 = true
  /\ exists method, py_get body (py "method") = Return method
     /\ if is_initialize method
        then session_id st1 = session_id st /\ wire st1 = wire st
        else exists tok st0, get_or_create_session upstream st = (Return tok, st0)
                             /\ session_id st1 = session_id st0 /\ wire st1 = wire st0.
Proof.
  unfold prepare, bind, lift, read_session, get_http_client, ret.
  destruct (py_get body (py "method")) as [method|e]; [|discriminate].
  destruct (py_get body (py "id")) as [rid|e]; [|discriminate].
  destruct (is_initialize method) eqn:Hm; cbn [negb].
  - intros [= <- <- <-]. cbn. repeat split; try reflexivity.
    exists method. rewrite Hm. repeat split; reflexivity.
  - destruct (get_or_create_session upstream st) as [[tok|e] st0] eqn:G; [|discriminate].
    intros [= <- <- <-]. cbn. repeat split; try reflexivity.
    exists method. rewrite Hm. split; [reflexivity|]. exists tok, st0. repeat split; reflexivity.
Qed.

Lemma handle_jsonrpc_relay (raw : str) (body : json) (st st1 : bridge)
      (request_id : json) (q : request) :
  loads raw = Some body ->
  prepare upstream body st = (Return (request_id, q), st1) ->
  handle_jsonrpc loads upstream exn_text raw st =
  match relay loads upstream request_id q st1 with
  | (Return resp, st') => (Return resp, st')
  | (Raise e, st') => (except_clause exn_text (Some body) e, st')
  end.
Proof.
  intros Hl Hp. unfold handle_jsonrpc, try_block, bind. rewrite Hl, Hp. reflexivity.
Qed.

End GatewayFacts.



Section GatewayClaims.

Variable loads : str -> option json.
Variable upstream : list event -> request -> reply.
Variable exn_text : exn -> str.

Lemma handle_jsonrpc_exhausted
    (raw : str) (body : json) (st st1 : bridge) (request_id : json) (q : request)
    (r : response) :
  loads raw = Some body ->
  prepare upstream body st = (Return (request_id, q), st1) ->
  upstream (wire st1) q = Answered r ->
  is_success r = true ->
  status_code r <> 202%Z ->
  broken r = None ->
  first_frame loads (complete_lines (concat (map decode_utf8_ignore (chunks r)))) = None ->
  handle_jsonrpc loads upstream exn_text raw st =
    (Return {| content := error_envelope request_id no_response_message;
               http_status := 500 |},
     emit_all (map Pulled (chunks r)) (emit (Posted q) st1)).
Proof.
  intros Hl Hp Hup Hs H202 Hb Hnone.
  rewrite (handle_jsonrpc_relay loads upstream exn_text raw body st st1 request_id q Hl Hp).
  rewrite (relay_stream loads upstream request_id q st1 r Hup Hs H202).
  rewrite (aiter_bytes_exhausted loads (chunks r) Hnone), Hb. reflexivity.
Qed.




(** C10.  Only newline-terminated lines are examined: if the decoded stream
    is [pre ++ tail] where [pre] ends at a line boundary and holds no frame,
    and [tail] is a final line without its newline, then the handler returns
    the exhaustion error with status 500 even though [tail] on its own is a
    frame the loop body would have returned. *)
Theorem unterminated_tail_ignored
    (raw : str) (body : json) (st st1 : bridge) (request_id : json) (q : request)
    (r : response) (pre tail : str) (j : json) :
  loads raw = Some body ->
  prepare upstream body st = (Return (request_id, q), st1) ->
  upstream (wire st1) q = Answered r ->
  is_success r = true ->
  status_code r <> 202%Z ->
  broken r = None ->
  concat (map decode_utf8_ignore (chunks r)) = pre ++ tail ->
  residue pre = [] ->
  first_frame loads (complete_lines pre) = None ->
  str_contains NL tail = false ->
  handle_line loads tail = Some j ->
  handle_jsonrpc loads upstream exn_text raw st =
    (Return {| content := error_envelope request_id no_response_message;
               http_status := 500 |},
     emit_all (map Pulled (chunks r)) (emit (Posted q) st1)).
Proof.
  intros Hl Hp Hup Hs H202 Hb Htext Hpre Hnone Htail _.
  apply (handle_jsonrpc_exhausted raw body st st1 request_id q r Hl Hp Hup Hs H202 Hb).
  rewrite Htext, complete_lines_app, Hpre, first_frame_app, Hnone. cbn [app].
  destruct (complete_lines_no_newline tail Htail) as [-> _]. reflexivity.
Qed.

(** *** What a call leaves in the globals *)

Lemma session_resume_wire (rp : reply) (st : bridge) :
  wire (session_resume rp st).2 = wire st.
Proof.
  unfold session_resume. destruct rp as [d|r]; [reflexivity|].
  destruct (raise_for_status r); reflexivity.
Qed.

Lemma relay_keeps (request_id : json) (q : request) (st : bridge) :
  session_id (relay loads upstream request_id q st).2 = session_id st
  /\ exists pulled,
       wire (relay loads upstream request_id q st).2 = wire st ++ Posted q :: map Pulled pulled.
Proof.
  unfold relay, bind, client_stream, lift, tell, ret, raise.
  destruct (upstream (wire st) q) as [d|r].
  { split; [reflexivity|]. exists []. reflexivity. }
  destruct (raise_for_status r).
  2:{ split; [reflexivity|]. exists []. reflexivity. }
  destruct (status_code r =? 202)%Z.
  { split; [reflexivity|]. exists []. reflexivity. }
  destruct (aiter_bytes loads (chunks r) []) as [found pulled].
  assert (forall es, wire (emit_all es (emit (Posted q) st)) = wire st ++ Posted q :: es) as W.
  { intros es. cbn. rewrite <- app_assoc. reflexivity. }
  destruct found as [j|]; [|destruct (broken r)];
    (split; [reflexivity | exists pulled; apply W]).
Qed.

Lemma prepare_keeps (body : json) (st : bridge) (tok : str) :
  session_id st = Some tok ->
  session_id (prepare upstream body st).2 = Some tok.
Proof.
  intros H. unfold prepare, bind, lift, read_session, get_http_client, ret.
  destruct (py_get body (py "method")) as [method|e]; [|exact H].
  destruct (py_get body (py "id")) as [rid|e]; [|exact H].
  destruct (is_initialize method); cbn [negb]; [exact H|].
  rewrite (get_or_create_session_cached upstream st tok H). exact H.
Qed.

Lemma handle_jsonrpc_state (raw : str) (body : json) (st : bridge) :
  loads raw = Some body ->
  (handle_jsonrpc loads upstream exn_text raw st).2 = (try_block loads upstream body st).2.
Proof.
  intros Hl. unfold handle_jsonrpc. rewrite Hl.
  destruct (try_block loads upstream body st) as [[resp|e] st']; reflexivity.
Qed.

Lemma try_block_session (body : json) (st : bridge) :
  session_id (try_block loads upstream body st).2 =
  session_id (prepare upstream body st).2.
Proof.
  unfold try_block, bind.
  destruct (prepare upstream body st) as [[p|e] st1]; [|reflexivity].
  apply relay_keeps.
Qed.

(** A token that is set survives every request, whatever its body. *)
Lemma handle_jsonrpc_keeps (raw : str) (st : bridge) (tok : str) :
  session_id st = Some tok ->
  session_id (handle_jsonrpc loads upstream exn_text raw st).2 = Some tok.
Proof.
  intros H. destruct (loads raw) as [body|] eqn:Hl.
  - rewrite (handle_jsonrpc_state raw body st Hl), try_block_session.
    exact (prepare_keeps body st tok H).
  - unfold handle_jsonrpc. rewrite Hl. exact H.
Qed.

(** C7.  If the handshake of [get_or_create_session] is refused by the
    transport or answered with a non-2xx status, the call raises that error,
    the stored token is still [None], and the next call sends the handshake
    again. *)
Theorem handshake_failure_atomic (st : bridge) :
  session_id st = None ->
  accepted (upstream (wire st) handshake) = false ->
  exists e st',
    get_or_create_session upstream st = (Raise e, st')
    /\ match upstream (wire st) handshake with
       | Refused d => e = TransportError d
       | Answered r => e = HTTPStatusError (status_code r)
       end
    /\ session_id st' = None
    /\ wire st' = wire st ++ [Posted handshake]
    /\ wire (get_or_create_session upstream st').2 = wire st' ++ [Posted handshake].
Proof.
  intros Hnone Hrej.
  destruct (session_resume_rejected _ (emit (Posted handshake) (with_client st)) Hrej)
    as (e & Hres & He).
  exists e, (emit (Posted handshake) (with_client st)).
  rewrite (get_or_create_session_fresh upstream st Hnone), Hres.
  split; [reflexivity|]. split; [exact He|]. split; [exact Hnone|]. split; [reflexivity|].
  rewrite get_or_create_session_fresh by exact Hnone.
  rewrite session_resume_wire. reflexivity.
Qed.

(** C8.  The request the handler forwards carries the stored token as its
    [mcp-session-id] header whenever a token is stored; for a method other
    than ["initialize"] that token is the one [get_or_create_session]
    returned just before.  The handshake itself, and a forwarded call made
    while no token is stored, carry none. *)
Theorem forwarded_carries_token
    (raw : str) (body : json) (st st1 : bridge) (request_id : json) (q : request) :
  token_ok st ->
  loads raw = Some body ->
  prepare upstream body st = (Return (request_id, q), st1) ->
  (exists pulled,
      wire (handle_jsonrpc loads upstream exn_text raw st).2
      = wire st1 ++ Posted q :: map Pulled pulled)
  /\ req_json q = body
  /\ (forall tok, session_id st1 = Some tok ->
        req_headers q = base_headers ++ [(session_header, tok)])
  /\ (session_id st1 = None -> req_headers q = base_headers)
  /\ (forall method, py_get body (py "method") = Return method ->
        is_initialize method = false ->
        exists tok st0, get_or_create_session upstream st = (Return tok, st0)
                        /\ req_headers q = base_headers ++ [(session_header, tok)])
  /\ req_headers handshake = base_headers.
Proof.
  intros Hok Hl Hp.
  destruct (prepare_Return upstream body st st1 request_id q Hp)
    as (_ & Hq & _ & method & Hm & Hcase).
  assert (token_ok st1) as Hok1.
  { destruct (is_initialize method).
    - destruct Hcase as [E _]. unfold token_ok. rewrite E. exact Hok.
    - destruct Hcase as (tok & st0 & G & E & _).
      destruct (get_or_create_session_token upstream st st0 tok Hok G) as [Hne E0].
      unfold token_ok. rewrite E, E0. congruence. }
  assert (forall tok, session_id st1 = Some tok ->
            req_headers q = base_headers ++ [(session_header, tok)]) as Hsome.
  { intros tok E. rewrite Hq, E. destruct tok as [|c t].
    - exfalso. apply Hok1. exact E.
    - reflexivity. }
  split; [|split; [|split; [|split; [|split]]]].
  - rewrite (handle_jsonrpc_state raw body st Hl). unfold try_block, bind. rewrite Hp.
    apply relay_keeps.
  - rewrite Hq. reflexivity.
  - exact Hsome.
  - intros E. rewrite Hq, E. unfold forwarded. cbn [truthy req_headers]. apply app_nil_r.
  - intros m Hm' Hni. rewrite Hm in Hm'. injection Hm' as <-. rewrite Hni in Hcase.
    destruct Hcase as (tok & st0 & G & E & _). exists tok, st0. split; [exact G|].
    apply Hsome. rewrite E.
    apply (get_or_create_session_token upstream st st0 tok Hok G).
  - reflexivity.
Qed.


(** A body that parses to anything but an object makes the handler raise:
    [body.get] fails in the [try] block and again in the [except] clause. *)
Lemma non_object_body_escapes (raw : str) (body : json) (st : bridge) :
  loads raw = Some body ->
  is_dict body = false ->
  handle_jsonrpc loads upstream exn_text raw st = (Raise AttributeError, st).
Proof.
  intros Hl Hd. unfold handle_jsonrpc. rewrite Hl.
  destruct body; try discriminate Hd; reflexivity.
Qed.


End GatewayClaims.

(** ** Concurrent callers *)

Lemma step_Enter_inv (i : nat) (s s' : system) :
  step (Enter i) s = Some s' ->
  tasks s !! i = Some Waiting /\ session_lock s = false
  /\ match session_id (globals s) with
     | Some sid =>
       s' = {| globals := globals s; session_lock := false;
               tasks := <[i := Finished (Return sid)]> (tasks s) |}
     | None =>
       s' = {| globals := emit (Posted handshake) (with_client (globals s));
               session_lock := true;
               tasks := <[i := InFlight]> (tasks s) |}
     end.
Proof.
  unfold step, session_enter.
  destruct (tasks s !! i) as [[| |r]|]; try discriminate.
  destruct (session_lock s); [discriminate|].
  destruct (session_id (globals s)); intros [= <-]; auto.
Qed.

Lemma step_Reply_inv (i : nat) (rp : reply) (s s' : system) :
  step (Reply i rp) s = Some s' ->
  tasks s !! i = Some InFlight
  /\ s' = {| globals := (session_resume rp (globals s)).2; session_lock := false;
             tasks := <[i := Finished (session_resume rp (globals s)).1]> (tasks s) |}.
Proof.
  unfold step.
  destruct (tasks s !! i) as [[| |r]|]; try discriminate.
  destruct (session_resume rp (globals s)) as [r g]. intros [= <-]; auto.
Qed.

Lemma settled_step (g : bridge) (n : nat) (tok : str) (m : move) (s s' : system) :
  settled g n tok s -> step m s = Some s' -> settled g n tok s'.
Proof.
  intros (Hg & Hl & Hn & Hall) Hstep. destruct m as [i|i rp].
  - destruct (step_Enter_inv i s s' Hstep) as (Hi & _ & Hs').
    rewrite Hg in Hs'. cbn [session_id set_session] in Hs'. subst s'.
    unfold settled. cbn [globals session_lock tasks].
    split; [reflexivity|]. split; [reflexivity|]. split.
    + rewrite length_insert. exact Hn.
    + apply Forall_insert; [exact Hall | right; reflexivity].
  - destruct (step_Reply_inv i rp s s' Hstep) as (Hi & _).
    apply list_elem_of_lookup_2 in Hi.
    rewrite Forall_forall in Hall. destruct (Hall _ Hi); discriminate.
Qed.

Lemma settled_exec (g : bridge) (n : nat) (tok : str) (ms : list move) (s s' : system) :
  settled g n tok s -> exec ms s = Some s' -> settled g n tok s'.
Proof.
  revert s. induction ms as [|m ms IH]; intros s Hs; cbn [exec].
  - intros [= <-]. exact Hs.
  - destruct (step m s) as [s1|] eqn:E; [|discriminate].
    apply IH. exact (settled_step g n tok m s s1 Hs E).
Qed.

Lemma in_flight_exec (g : bridge) (n : nat) (ms : list move) (s s' : system) :
  in_flight g n s ->
  first_reply_accepted ms = true ->
  exec ms s = Some s' ->
  in_flight g n s' \/ exists tok, tok <> [] /\ settled g n tok s'.
Proof.
  intros (i & Hi & ->) Hacc. destruct ms as [|m ms]; cbn [exec].
  - intros [= <-]. left. exists i. auto.
  - destruct m as [j|j rp].
    + cbn [step tasks session_lock]. destruct (_ !! j) as [[| |r]|]; discriminate.
    + cbn [first_reply_accepted] in Hacc.
      destruct (step (Reply j rp) _) as [s1|] eqn:E; [|discriminate].
      destruct (step_Reply_inv j rp _ s1 E) as (Hj & Hs1). cbn [tasks globals] in Hj, Hs1.
      assert (j = i) as ->.
      { destruct (decide (j = i)) as [|Hne]; [assumption|].
        rewrite list_lookup_insert_ne in Hj by congruence.
        apply lookup_replicate in Hj as [? _]. discriminate. }
      destruct (session_resume_accepted rp (emit (Posted handshake) (with_client g)) Hacc)
        as (tok & Hne & Hres).
      rewrite Hres in Hs1. cbn [fst snd] in Hs1. rewrite list_insert_insert_eq in Hs1.
      intros Hex. right. exists tok. split; [exact Hne|].
      apply (settled_exec g n tok ms s1 s'); [|exact Hex].
      subst s1. unfold settled. cbn [globals session_lock tasks].
      split; [reflexivity|]. split; [reflexivity|]. split.
      * rewrite length_insert, length_replicate. reflexivity.
      * apply Forall_insert; [|right; reflexivity].
        apply Forall_replicate. left; reflexivity.
Qed.

Lemma spawn_exec (g : bridge) (n : nat) (ms : list move) (s' : system) :
  session_id g = None ->
  first_reply_accepted ms = true ->
  exec ms (spawn g n) = Some s' ->
  s' = spawn g n \/ in_flight g n s' \/ exists tok, tok <> [] /\ settled g n tok s'.
Proof.
  intros Hnone Hacc. destruct ms as [|m ms]; cbn [exec].
  - intros [= <-]. left. reflexivity.
  - destruct (step m (spawn g n)) as [s1|] eqn:E; [|discriminate].
    destruct m as [i|i rp].
    + destruct (step_Enter_inv i _ s1 E) as (Hi & _ & Hs1).
      cbn [spawn globals tasks] in Hi, Hs1. rewrite Hnone in Hs1.
      apply lookup_replicate in Hi as [_ Hi]. intros Hex. right.
      apply (in_flight_exec g n ms s1 s'); [|exact Hacc|exact Hex].
      exists i. auto.
    + destruct (step_Reply_inv i rp _ s1 E) as (Hi & _). cbn [spawn tasks] in Hi.
      apply lookup_replicate in Hi as [? _]. discriminate.
Qed.

Lemma all_finished_replicate (n : nat) (tok : str) (ts : list task) :
  length ts = n ->
  Forall (fun t => t = Waiting \/ t = Finished (Return tok)) ts ->
  forallb is_finished ts = true ->
  ts = replicate n (Finished (Return tok)).
Proof.
  intros <- Hall. induction Hall as [|t ts [-> | ->] _ IH]; cbn; [reflexivity|discriminate|].
  intros H. f_equal. exact (IH H).
Qed.

(** *** The lock discipline holds along every run *)

Lemma session_resume_Return (rp : reply) (st st' : bridge) (t : str) :
  session_resume rp st = (Return t, st') -> session_id st' = Some t.
Proof.
  unfold session_resume. destruct rp as [d|r]; [discriminate|].
  destruct (raise_for_status r); [|discriminate].
  intros [= <- <-]. reflexivity.
Qed.

Ltac at_index j i H Hlt :=
  destruct (decide (j = i)) as [->|?];
  [ rewrite (list_lookup_insert_eq _ _ _ Hlt) in H
  | rewrite list_lookup_insert_ne in H by congruence ].

Lemma lock_inv_spawn (g : bridge) (n : nat) : lock_inv (spawn g n).
Proof.
  split; cbn [spawn session_lock tasks globals].
  - intros _ i H. apply lookup_replicate in H as [? _]. discriminate.
  - discriminate.
  - intros i j H. apply lookup_replicate in H as [? _]. discriminate.
  - discriminate.
  - intros i t H. apply lookup_replicate in H as [? _]. discriminate.
Qed.

Lemma lock_inv_step (m : move) (s s' : system) :
  lock_inv s -> step m s = Some s' -> lock_inv s'.
Proof.
  intros [Hidle Hheld Huniq _ Htok] Hstep. destruct m as [i|i rp].
  - destruct (step_Enter_inv i s s' Hstep) as (Hi & Hl & Hs').
    pose proof (lookup_lt_Some _ _ _ Hi) as Hlt.
    destruct (session_id (globals s)) as [sid|] eqn:E; subst s';
      split; cbn [session_lock tasks globals]; try discriminate.
    + intros _ j H. at_index j i H Hlt; [discriminate | exact (Hidle Hl j H)].
    + intros j k H. at_index j i H Hlt; [discriminate | destruct (Hidle Hl j H)].
    + intros j t H. at_index j i H Hlt; [congruence | rewrite E; exact (Htok j t H)].
    + intros _. exact E.
    + intros j k Hj Hk.
      at_index j i Hj Hlt; at_index k i Hk Hlt;
        try reflexivity; exfalso; eapply (Hidle Hl); eassumption.
    + intros _. exists i. apply list_lookup_insert_eq. exact Hlt.
    + intros j t H. at_index j i H Hlt; [discriminate|].
      pose proof (Htok j t H). discriminate.
  - destruct (step_Reply_inv i rp s s' Hstep) as (Hi & Hs').
    pose proof (lookup_lt_Some _ _ _ Hi) as Hlt.
    assert (session_id (globals s) = None) as Hnone.
    { apply Hheld. destruct (session_lock s) eqn:L; [reflexivity|].
      destruct (Hidle eq_refl i Hi). }
    subst s'. split; cbn [session_lock tasks globals]; try discriminate.
    + intros _ j H. at_index j i H Hlt; [discriminate|].
      pose proof (Huniq j i H Hi). congruence.
    + intros j k H. at_index j i H Hlt; [discriminate|].
      pose proof (Huniq j i H Hi). congruence.
    + intros j t H. at_index j i H Hlt.
      * injection H as H. destruct (session_resume rp (globals s)) as [r g'] eqn:R.
        cbn [fst snd] in *. subst r. exact (session_resume_Return rp _ _ t R).
      * rewrite (Htok j t H) in Hnone. discriminate.
Qed.

Lemma lock_inv_exec (ms : list move) (s s' : system) :
  lock_inv s -> exec ms s = Some s' -> lock_inv s'.
Proof.
  revert s. induction ms as [|m ms IH]; intros s Hs; cbn [exec].
  - intros [= <-]. exact Hs.
  - destruct (step m s) as [s1|] eqn:E; [|discriminate].
    apply IH. exact (lock_inv_step m s s1 Hs E).
Qed.

(** X27.  All callers that are handed a token are handed the same one,
    whatever the schedule and whatever the upstream answers, failed
    handshakes included. *)
Lemma tokens_agree (g : bridge) (n : nat) (ms : list move) (s' : system)
      (i j : nat) (t u : str) :
  exec ms (spawn g n) = Some s' ->
  tasks s' !! i = Some (Finished (Return t)) ->
  tasks s' !! j = Some (Finished (Return u)) ->
  t = u.
Proof.
  intros Hex Hi Hj.
  destruct (lock_inv_exec ms _ s' (lock_inv_spawn g n) Hex) as [_ _ _ _ Htok].
  pose proof (Htok i t Hi) as A. pose proof (Htok j u Hj) as B. congruence.
Qed.

(** A stored token is not replaced by any later move. *)
Lemma token_stable (m : move) (s s' : system) (t : str) :
  lock_inv s -> session_id (globals s) = Some t -> step m s = Some s' ->
  globals s' = globals s.
Proof.
  intros [Hidle Hheld _ _ _] Ht Hstep. destruct m as [i|i rp].
  - destruct (step_Enter_inv i s s' Hstep) as (_ & _ & Hs'). rewrite Ht in Hs'.
    subst s'. reflexivity.
  - destruct (step_Reply_inv i rp s s' Hstep) as (Hi & _).
    destruct (session_lock s) eqn:L.
    + rewrite (Hheld eq_refl) in Ht. discriminate.
    + destruct (Hidle eq_refl i Hi).
Qed.

(** C1, as the code has it.  [n] callers enter [get_or_create_session]
    while no token is stored and are scheduled in any order; if the first
    handshake to complete is accepted by the upstream, then when all callers
    are done exactly one handshake has gone out, every caller has been
    returned the same non-empty token, that token is stored, and no later
    move changes it or sends anything; a call made while a token is stored
    returns it and leaves the globals, traffic included, as they were; and
    no request that [handle_jsonrpc] serves replaces a stored token. *)
Theorem single_flight (g : bridge) (n : nat) (ms : list move) (s' : system) :
  session_id g = None ->
  0 < n ->
  exec ms (spawn g n) = Some s' ->
  all_finished s' = true ->
  first_reply_accepted ms = true ->
  exists tok,
    tok <> []
    /\ wire (globals s') = wire g ++ [Posted handshake]
    /\ session_id (globals s') = Some tok
    /\ tasks s' = replicate n (Finished (Return tok))
    /\ (forall ms' s'', exec ms' s' = Some s'' -> globals s'' = globals s')
    /\ (forall upstream st t,
          session_id st = Some t -> get_or_create_session upstream st = (Return t, st))
    /\ (forall loads upstream exn_text raw st t,
          session_id st = Some t ->
          session_id (handle_jsonrpc loads upstream exn_text raw st).2 = Some t).
Proof.
  intros Hnone Hn Hex Hfin Hacc.
  destruct (spawn_exec g n ms s' Hnone Hacc Hex) as [-> | [(i & Hi & ->) | (tok & Hne & Hset)]].
  - destruct n; [lia | discriminate Hfin].
  - exfalso. unfold all_finished in Hfin. cbn [tasks] in Hfin.
    rewrite forallb_forall in Hfin.
    assert (In InFlight (<[i := InFlight]> (replicate n Waiting))) as Hin.
    { apply list_elem_of_In, list_elem_of_lookup. exists i.
      apply list_lookup_insert_eq. rewrite length_replicate. exact Hi. }
    specialize (Hfin _ Hin). discriminate.
  - exists tok. destruct Hset as (Hg & Hl & Hlen & Hall).
    split; [exact Hne|]. split; [rewrite Hg; reflexivity|].
    split; [rewrite Hg; reflexivity|].
    split; [exact (all_finished_replicate n tok (tasks s') Hlen Hall Hfin)|].
    split.
    + intros ms' s'' Hex'.
      destruct (settled_exec g n tok ms' s' s'' (conj Hg (conj Hl (conj Hlen Hall))) Hex')
        as (Hg' & _).
      congruence.
    + split.
      * intros upstream st t Ht. unfold get_or_create_session, session_enter.
        rewrite Ht. reflexivity.
      * intros loads upstream exn_text raw st t Ht.
        exact (handle_jsonrpc_keeps loads upstream exn_text raw st t Ht).
Qed.

Lemma unfinished_waiting (ts : list task) :
  forallb is_finished ts = false ->
  (forall i, ts !! i <> Some InFlight) ->
  exists i, ts !! i = Some Waiting.
Proof.
  induction ts as [|t ts IH]; [discriminate|]. intros Hfin Hidle.
  destruct t as [| |r].
  - exists 0. reflexivity.
  - destruct (Hidle 0). reflexivity.
  - cbn in Hfin. destruct (IH Hfin (fun i => Hidle (S i))) as [i Hi].
    exists (S i). exact Hi.
Qed.

(** No caller is left behind: as long as someone is not done a move is
    possible, whatever the upstream is about to answer, and every move uses
    up one of the two moves each caller has. *)
Lemma progress (g : bridge) (n : nat) (ms : list move) (s : system) (rp : reply) :
  exec ms (spawn g n) = Some s ->
  all_finished s = false ->
  exists i s', step (Enter i) s = Some s' \/ step (Reply i rp) s = Some s'.
Proof.
  intros Hex Hfin.
  destruct (lock_inv_exec ms _ s (lock_inv_spawn g n) Hex) as [Hidle _ _ Hbusy _].
  destruct (session_lock s) eqn:L.
  - destruct (Hbusy eq_refl) as [i Hi]. exists i.
    unfold step. rewrite Hi. destruct (session_resume rp (globals s)). eauto.
  - destruct (unfinished_waiting (tasks s) Hfin (Hidle eq_refl)) as [i Hi].
    exists i. unfold step. rewrite Hi, L.
    destruct (session_enter (globals s)) as [[sid|q] g']; eauto.
Qed.

Lemma sum_weight_insert (ts : list task) (i : nat) (old new : task) :
  ts !! i = Some old ->
  sum_list (map weight (<[i := new]> ts)) + weight old
  = sum_list (map weight ts) + weight new.
Proof.
  revert i. induction ts as [|t ts IH]; intros [|i] H; try discriminate.
  - injection H as ->. cbn. lia.
  - specialize (IH i H).
    change (<[S i := new]> (t :: ts)) with (t :: <[i := new]> ts).
    cbn [map sum_list_with] in *. lia.
Qed.

Lemma step_remaining (m : move) (s s' : system) :
  step m s = Some s' -> remaining s' < remaining s.
Proof.
  intros Hstep. unfold remaining. destruct m as [i|i rp].
  - destruct (step_Enter_inv i s s' Hstep) as (Hi & _ & Hs').
    destruct (session_id (globals s)) as [sid|]; subst s'; cbn [tasks].
    + pose proof (sum_weight_insert (tasks s) i Waiting (Finished (Return sid)) Hi) as E.
      cbn [weight] in E. lia.
    + pose proof (sum_weight_insert (tasks s) i Waiting InFlight Hi) as E.
      cbn [weight] in E. lia.
  - destruct (step_Reply_inv i rp s s' Hstep) as (Hi & ->). cbn [tasks].
    pose proof (sum_weight_insert (tasks s) i InFlight
                  (Finished (session_resume rp (globals s)).1) Hi) as E.
    cbn [weight] in E. lia.
Qed.

Lemma exec_remaining (ms : list move) (s s' : system) :
  exec ms s = Some s' -> remaining s' + length ms <= remaining s.
Proof.
  revert s. induction ms as [|m ms IH]; intros s; cbn [exec length].
  - intros [= <-]. lia.
  - destruct (step m s) as [s1|] eqn:E; [|discriminate]. intros H.
    specialize (IH s1 H). pose proof (step_remaining m s s1 E). lia.
Qed.

Lemma remaining_spawn (g : bridge) (n : nat) : remaining (spawn g n) = 2 * n.
Proof.
  unfold remaining, spawn. cbn [tasks]. induction n as [|n IH]; [reflexivity|].
  cbn [replicate map sum_list_with weight id]. rewrite IH. unfold id. lia.
Qed.

(** A run of [n] callers has at most [2 * n] moves. *)
Lemma exec_bounded (g : bridge) (n : nat) (ms : list move) (s' : system) :
  exec ms (spawn g n) = Some s' -> length ms <= 2 * n.
Proof.
  intros H. pose proof (exec_remaining ms _ s' H) as B.
  rewrite remaining_spawn in B. lia.
Qed.

(** ** Chunk boundaries *)

(** On text, the decode loop does not see where the chunks were cut. *)
Lemma aiter_text_chunking (loads : str -> option json) (s1 s2 : list str) :
  concat s1 = concat s2 ->
  (aiter_text loads s1 []).1 = (aiter_text loads s2 []).1.
Proof.
  intros H. rewrite !aiter_text_result by reflexivity. cbn [app]. rewrite H. reflexivity.
Qed.

Lemma utf8_ignore_ascii (bs : list N) :
  Forall (fun b => (b < 128)%N) bs -> utf8_ignore bs = bs.
Proof.
  induction 1 as [|b bs Hb _ IH]; [reflexivity|].
  cbn [utf8_ignore]. apply N.ltb_lt in Hb. rewrite Hb, IH. reflexivity.
Qed.

(** On bytes, the same holds when every chunk is cut between characters; for
    ASCII streams that is every cut. *)
Lemma aiter_bytes_chunking (loads : str -> option json) (s1 s2 : list bytes) :
  concat (map decode_utf8_ignore s1) = concat (map decode_utf8_ignore s2) ->
  (aiter_bytes loads s1 []).1 = (aiter_bytes loads s2 []).1.
Proof.
  intros H. rewrite !aiter_bytes_text.
  pose proof (aiter_text_chunking loads _ _ H) as E.
  destruct (aiter_text loads (map decode_utf8_ignore s1) []) as [r1 n1].
  destruct (aiter_text loads (map decode_utf8_ignore s2) []) as [r2 n2].
  exact E.
Qed.

Lemma decode_ascii_chunks (s : list bytes) :
  Forall (Forall (fun b => (Byte.to_N b < 128)%N)) s ->
  concat (map decode_utf8_ignore s) = map Byte.to_N (concat s).
Proof.
  induction 1 as [|c s Hc _ IH]; [reflexivity|].
  cbn [map concat]. rewrite map_app, IH. f_equal.
  unfold decode_utf8_ignore. apply utf8_ignore_ascii.
  apply Forall_map. exact Hc.
Qed.

(** X28.  For a stream of ASCII bytes the decode loop returns the same
    object however the bytes are cut into chunks. *)
Lemma aiter_bytes_chunking_ascii (loads : str -> option json) (s1 s2 : list bytes) :
  Forall (Forall (fun b => (Byte.to_N b < 128)%N)) s1 ->
  Forall (Forall (fun b => (Byte.to_N b < 128)%N)) s2 ->
  concat s1 = concat s2 ->
  (aiter_bytes loads s1 []).1 = (aiter_bytes loads s2 []).1.
Proof.
  intros H1 H2 E. apply aiter_bytes_chunking.
  rewrite (decode_ascii_chunks s1 H1), (decode_ascii_chunks s2 H2), E. reflexivity.
Qed.

(** C4.  The same bytes, [data: {"jsonrpc":"2.0","id":"é"}] and a newline,
    delivered in one chunk or cut inside the two-byte letter: each half of
    the letter is dropped by its chunk's [decode(errors='ignore')], and the
    handler returns a different object. *)
Theorem chunk_cut_inside_character :
  Sample.accent_head ++ Sample.accent_tail = Sample.accent_frame
  /\ (handle_jsonrpc RefJson.loads (Sample.serving [Sample.accent_frame])
        Sample.describe Sample.tools_list_call boot).1
     = Return {| content := Sample.accent_result [233%N]; http_status := 200 |}
  /\ (handle_jsonrpc RefJson.loads (Sample.serving [Sample.accent_head; Sample.accent_tail])
        Sample.describe Sample.tools_list_call boot).1
     = Return {| content := Sample.accent_result []; http_status := 200 |}
  /\ (aiter_bytes RefJson.loads [Sample.accent_frame] []).1
     <> (aiter_bytes RefJson.loads [Sample.accent_head; Sample.accent_tail] []).1.
Proof.
  split; [reflexivity|]. split; [vm_compute; reflexivity|].
  split; [vm_compute; reflexivity|]. vm_compute. discriminate.
Qed.

(** ** Worked examples *)

(** C2.  A body that is valid JSON but not an object, here the empty batch
    [[]]: [body.get] raises [AttributeError] in the [try] block, the
    catch-all clause calls [body.get("id")] again, and the exception leaves
    the handler. *)
Theorem array_body_escapes
    (upstream : list event -> request -> reply) (exn_text : exn -> str) (st : bridge) :
  handle_jsonrpc RefJson.loads upstream exn_text Sample.batch_call st
  = (Raise AttributeError, st).
Proof.
  apply non_object_body_escapes with (body := JList []); [vm_compute|]; reflexivity.
Qed.

(** Malformed JSON, on the other hand, is answered with the error envelope,
    [id] null, status 500. *)
Example malformed_body_answered :
  (handle_jsonrpc RefJson.loads (Sample.serving []) Sample.describe (py "{oops") boot).1
  = Return {| content := error_envelope JNull (py "Internal error: Expecting value");
              http_status := 500 |}.
Proof. vm_compute. reflexivity. Qed.

(** C1, as stated: two callers, the first handshake answered with 503.  Two
    handshakes go out and the first caller gets an exception, not a token. *)
Lemma failed_handshake_is_repeated :
  exists s',
    exec Sample.rough_run (spawn boot 2) = Some s'
    /\ all_finished s' = true
    /\ wire (globals s') = [Posted handshake; Posted handshake]
    /\ tasks s' = [Finished (Raise (HTTPStatusError 503)); Finished (Return Sample.token)].
Proof. eexists. vm_compute. repeat split; reflexivity. Qed.

Lemma single_flight_witness :
  exists tok,
    tok <> []
    /\ wire (globals Sample.calm_end) = wire boot ++ [Posted handshake]
    /\ session_id (globals Sample.calm_end) = Some tok
    /\ tasks Sample.calm_end = replicate 3 (Finished (Return tok))
    /\ (forall ms' s'',
          exec ms' Sample.calm_end = Some s'' -> globals s'' = globals Sample.calm_end)
    /\ (forall upstream st t,
          session_id st = Some t -> get_or_create_session upstream st = (Return t, st))
    /\ (forall loads upstream exn_text raw st t,
          session_id st = Some t ->
          session_id (handle_jsonrpc loads upstream exn_text raw st).2 = Some t).
Proof.
  apply (single_flight boot 3 Sample.calm_run Sample.calm_end);
    [reflexivity | lia | vm_compute; reflexivity | reflexivity | reflexivity].
Defined.




(** The round trip of the specification: the frame is the first data line
    of the stream and comes back as it is. *)
Example tools_list_round_trip :
  (handle_jsonrpc RefJson.loads (Sample.serving [Sample.tools_frame]) Sample.describe
     Sample.tools_list_call boot).1
  = Return {| content := Sample.tools_result; http_status := 200 |}.
Proof. vm_compute. reflexivity. Qed.



Lemma unterminated_tail_ignored_witness :
  handle_jsonrpc RefJson.loads (Sample.serving Sample.unterminated_stream) Sample.describe
    Sample.tools_list_call boot =
    (Return {| content := error_envelope (JInt 7) no_response_message; http_status := 500 |},
     emit_all (map Pulled (chunks (Sample.ok Sample.unterminated_stream)))
       (emit (Posted (forwarded (Some Sample.token) Sample.tools_list_body)) Sample.joined)).
Proof.
  apply (unterminated_tail_ignored RefJson.loads (Sample.serving Sample.unterminated_stream)
           Sample.describe Sample.tools_list_call Sample.tools_list_body boot Sample.joined
           (JInt 7) (forwarded (Some Sample.token) Sample.tools_list_body)
           (Sample.ok Sample.unterminated_stream)
           (Sample.text ": hello$") Sample.unterminated_tail Sample.tools_result);
    try (vm_compute; reflexivity).
  vm_compute. lia.
Defined.

Lemma handshake_failure_atomic_witness :
  exists e st',
    get_or_create_session Sample.recovering boot = (Raise e, st')
    /\ match Sample.recovering (wire boot) handshake with
       | Refused d => e = TransportError d
       | Answered r => e = HTTPStatusError (status_code r)
       end
    /\ session_id st' = None
    /\ wire st' = wire boot ++ [Posted handshake]
    /\ wire (get_or_create_session Sample.recovering st').2 = wire st' ++ [Posted handshake].
Proof.
  apply (handshake_failure_atomic Sample.recovering boot); reflexivity.
Defined.

Lemma forwarded_carries_token_witness :
  (exists pulled,
      wire (handle_jsonrpc RefJson.loads (Sample.serving [Sample.tools_frame])
              Sample.describe Sample.tools_list_call boot).2
      = wire Sample.joined
        ++ Posted (forwarded (Some Sample.token) Sample.tools_list_body) :: map Pulled pulled)
  /\ req_json (forwarded (Some Sample.token) Sample.tools_list_body) = Sample.tools_list_body
  /\ (forall tok, session_id Sample.joined = Some tok ->
        req_headers (forwarded (Some Sample.token) Sample.tools_list_body)
        = base_headers ++ [(session_header, tok)])
  /\ (session_id Sample.joined = None ->
        req_headers (forwarded (Some Sample.token) Sample.tools_list_body) = base_headers)
  /\ (forall method, py_get Sample.tools_list_body (py "method") = Return method ->
        is_initialize method = false ->
        exists tok st0,
          get_or_create_session (Sample.serving [Sample.tools_frame]) boot = (Return tok, st0)
          /\ req_headers (forwarded (Some Sample.token) Sample.tools_list_body)
             = base_headers ++ [(session_header, tok)])
  /\ req_headers handshake = base_headers.
Proof.
  apply (forwarded_carries_token RefJson.loads (Sample.serving [Sample.tools_frame])
           Sample.describe Sample.tools_list_call Sample.tools_list_body boot Sample.joined
           (JInt 7) (forwarded (Some Sample.token) Sample.tools_list_body));
    [vm_compute; discriminate | vm_compute; reflexivity | vm_compute; reflexivity].
Defined.

(** ** The flat-endpoint handlers *)

Section RestFacts.

Variable fz : str -> bool.
Variable show : json -> str.
Variable etext : exn -> str.
Variable bjson : response -> option json.
Variable btext : response -> str.
Variable up : list call -> call -> reply.
Variable url : str.

Lemma fastmcp_request_cases (endpoint method : str) (data : option json) (st : hub) :
  fastmcp_request fz bjson btext up endpoint method data st =
  (match up (calls st) (request_call fz endpoint method data) with
   | Refused d => Raise (TransportError d)
   | Answered r =>
     if is_success r
     then Return (match bjson r with Some j => j | None => JStr (btext r) end)
     else Raise (HTTPStatusError (status_code r))
   end,
   {| core := with_client (core st);
      calls := calls st ++ [request_call fz endpoint method data] |}).
Proof.
  unfold fastmcp_request, raise_for_status.
  destruct (up (calls st) (request_call fz endpoint method data)) as [d|r]; [reflexivity|].
  destruct (is_success r); [|reflexivity]. destruct (bjson r); reflexivity.
Qed.

Lemma quiet_refl (st : hub) : quiet st st.
Proof.
  split; [reflexivity|]. split; [reflexivity|]. exists []. rewrite app_nil_r.
  split; [cbn; lia | reflexivity].
Qed.

Lemma fastmcp_request_quiet (endpoint method : str) (data : option json) (st : hub) :
  quiet st (fastmcp_request fz bjson btext up endpoint method data st).2.
Proof.
  rewrite fastmcp_request_cases. split; [reflexivity|]. split; [reflexivity|].
  exists [request_call fz endpoint method data]. split; [cbn; lia | reflexivity].
Qed.

Lemma fastmcp_request_Raise (endpoint method : str) (data : option json) (st : hub) :
  accepted (up (calls st) (request_call fz endpoint method data)) = false ->
  exists e,
    (fastmcp_request fz bjson btext up endpoint method data st).1 = Raise e
    /\ match up (calls st) (request_call fz endpoint method data) with
       | Refused d => e = TransportError d
       | Answered r => e = HTTPStatusError (status_code r)
       end.
Proof.
  intros H. rewrite fastmcp_request_cases. cbn [fst].
  destruct (up (calls st) (request_call fz endpoint method data)) as [d|r]; cbn in H.
  - eexists. split; reflexivity.
  - rewrite H. eexists. split; reflexivity.
Qed.

Lemma fastmcp_request_Return (endpoint method : str) (data : option json) (st : hub) :
  accepted (up (calls st) (request_call fz endpoint method data)) = true ->
  exists r,
    up (calls st) (request_call fz endpoint method data) = Answered r
    /\ (fastmcp_request fz bjson btext up endpoint method data st).1
       = Return (match bjson r with Some j => j | None => JStr (btext r) end).
Proof.
  intros H. rewrite fastmcp_request_cases. cbn [fst].
  destruct (up (calls st) (request_call fz endpoint method data)) as [d|r]; cbn in H;
    [discriminate|].
  rewrite H. exists r. split; reflexivity.
Qed.

(** X1.  [fastmcp_request] makes exactly one call and touches neither the
    session token nor the [/mcp] traffic; it raises exactly when the call is
    refused or answered with a non-2xx status; a 2xx answer whose body does
    not parse is returned as its text; and a method other than the exact
    string "POST" is sent as a GET without a body. *)
Theorem fastmcp_request_contract (endpoint method : str) (data : option json) (st : hub) :
  calls (fastmcp_request fz bjson btext up endpoint method data st).2
  = calls st ++ [request_call fz endpoint method data]
  /\ session_id (core (fastmcp_request fz bjson btext up endpoint method data st).2)
     = session_id (core st)
  /\ wire (core (fastmcp_request fz bjson btext up endpoint method data st).2)
     = wire (core st)
  /\ ((exists e, (fastmcp_request fz bjson btext up endpoint method data st).1 = Raise e)
      <-> accepted (up (calls st) (request_call fz endpoint method data)) = false)
  /\ (forall r,
        up (calls st) (request_call fz endpoint method data) = Answered r ->
        is_success r = true ->
        bjson r = None ->
        (fastmcp_request fz bjson btext up endpoint method data st).1
        = Return (JStr (btext r)))
  /\ (method <> py "POST" ->
      request_call fz endpoint method data
      = {| call_verb := GET; call_endpoint := endpoint; call_json := None |}).
Proof.
  split; [rewrite fastmcp_request_cases; reflexivity|].
  split; [rewrite fastmcp_request_cases; reflexivity|].
  split; [rewrite fastmcp_request_cases; reflexivity|].
  split; [|split].
  - split.
    + intros [e He]. destruct (accepted _) eqn:A; [|reflexivity].
      destruct (fastmcp_request_Return endpoint method data st A) as (r & _ & Hr).
      rewrite Hr in He. discriminate.
    + intros A. destruct (fastmcp_request_Raise endpoint method data st A) as (e & He & _).
      exists e. exact He.
  - intros r Hr Hs Hj. rewrite fastmcp_request_cases, Hr, Hs, Hj. reflexivity.
  - intros Hm. unfold request_call. apply str_eqb_neq in Hm. rewrite Hm. reflexivity.
Qed.

(** *** Listing tools *)

Lemma py_or_truthy (a b : json) :
  json_truthy fz b = true -> json_truthy fz (py_or fz a b) = true.
Proof. intros H. unfold py_or. destruct (json_truthy fz a) eqn:E; [exact E | exact H]. Qed.

Lemma mcp_tool_standard (tool : list (str * json)) : standard_tool fz (mcp_tool fz tool).
Proof.
  unfold standard_tool, mcp_tool. eexists _, _, _. split; [reflexivity|].
  apply py_or_truthy. reflexivity.
Qed.

Lemma collect_tools_standard (tools : list json) :
  Forall (standard_tool fz) (collect_tools fz tools).
Proof.
  induction tools as [|t tools IH]; [constructor|].
  destruct t; cbn [collect_tools]; try exact IH.
  constructor; [apply mcp_tool_standard | exact IH].
Qed.

Lemma tools_answer_cases (result : json) :
  exists items,
    tools_answer fz result = singleton (py "tools") (JList (collect_tools fz items)).
Proof.
  unfold tools_answer, standard_tools.
  destruct (py_iter _) as [items|]; [exists items | exists []]; reflexivity.
Qed.

(** The loop leaves tools in standard form as they are. *)
Lemma collect_tools_fixed (l : list json) :
  Forall (standard_tool fz) l -> collect_tools fz l = l.
Proof.
  induction 1 as [|t l (name & description & schema & -> & Hs) _ IH]; [reflexivity|].
  cbn [collect_tools]. rewrite IH. f_equal.
  unfold mcp_tool. cbn. unfold py_or. rewrite Hs. cbv iota. rewrite Hs. reflexivity.
Qed.

(** X3.  Whatever the upstream does, [handle_tools_list] returns, without
    raising, an object whose only key is "tools", bound to a list in which
    every entry has exactly the fields name, description and inputSchema,
    the schema never being empty or null. *)
Theorem handle_tools_list_shape (params : json) (st : hub) :
  exists mcp_tools,
    (handle_tools_list fz bjson btext up params st).1
    = Return (singleton (py "tools") (JList mcp_tools))
    /\ Forall (standard_tool fz) mcp_tools.
Proof.
  unfold handle_tools_list.
  destruct (fastmcp_request fz bjson btext up (py "/tools/list") (py "POST")
              (Some (JDict [])) st) as [[result|e] st'].
  - destruct (tools_answer_cases result) as [items E]. cbn [fst]. rewrite E.
    eexists. split; [reflexivity | apply collect_tools_standard].
  - exists []. split; [reflexivity | constructor].
Qed.

(** X4.  Normalising is idempotent: an answer that [handle_tools_list] has
    produced, served back as the upstream's answer, comes out unchanged. *)
Theorem tools_answer_idempotent (result : json) :
  tools_answer fz (tools_answer fz result) = tools_answer fz result.
Proof.
  destruct (tools_answer_cases result) as [items ->].
  unfold tools_answer at 1. unfold standard_tools, singleton. cbn.
  rewrite (collect_tools_fixed _ (collect_tools_standard items)). reflexivity.
Qed.

(** X5.  Failures do not surface from [handle_tools_list]: when the call is
    refused or answered with a non-2xx status, or the answer is not JSON, or
    is JSON that is neither an object nor an array, the result is the empty
    tool list. *)
Theorem handle_tools_list_swallows (params : json) (st : hub) :
  (accepted (up (calls st) (request_call fz (py "/tools/list") (py "POST") (Some (JDict []))))
   = false
   \/ exists r,
       up (calls st) (request_call fz (py "/tools/list") (py "POST") (Some (JDict [])))
       = Answered r
       /\ is_success r = true
       /\ (bjson r = None
           \/ exists j, bjson r = Some j /\ is_dict j = false /\ is_list j = false)) ->
  (handle_tools_list fz bjson btext up params st).1
  = Return (singleton (py "tools") (JList [])).
Proof.
  unfold handle_tools_list. rewrite fastmcp_request_cases.
  intros [A | (r & Hr & Hs & Hj)].
  - destruct (up _ _) as [d|r]; cbn in A; [reflexivity|]. rewrite A. reflexivity.
  - rewrite Hr, Hs. destruct Hj as [-> | (j & -> & Hd & Hl)]; [reflexivity|].
    cbn [fst]. unfold tools_answer, standard_tools. rewrite Hd, Hl. reflexivity.
Qed.

(** *** Calling a tool *)

Lemma or_empty_nonempty (kv : str * json) (d : list (str * json)) :
  or_empty fz (Some (JDict (kv :: d))) = JDict (kv :: d).
Proof. reflexivity. Qed.

(** X6.  For an object [params], [handle_tools_call] never raises and
    always returns an object with a "content" key.  It posts the tool's name
    and arguments (an empty object when absent) to [/tools/call]; when that
    call fails the result is the error text "Error: ..." with isError set;
    an answer that has "content" is returned as it is. *)
Theorem handle_tools_call_total (d : list (str * json)) (st : hub) :
  exists out,
    (handle_tools_call fz show etext bjson btext up (JDict d) st).1 = Return out
    /\ dict_has (py "content") out = true
    /\ calls (handle_tools_call fz show etext bjson btext up (JDict d) st).2
       = calls st
         ++ [{| call_verb := POST; call_endpoint := py "/tools/call";
                call_json :=
                  Some (JDict [(py "name", default JNull (dict_lookup (py "name") d));
                               (py "arguments",
                                default (JDict []) (dict_lookup (py "arguments") d))]) |}]
    /\ (accepted (up (calls st)
                    {| call_verb := POST; call_endpoint := py "/tools/call";
                       call_json :=
                         Some (JDict [(py "name", default JNull (dict_lookup (py "name") d));
                                      (py "arguments",
                                       default (JDict [])
                                         (dict_lookup (py "arguments") d))]) |}) = false ->
        exists e, out = error_content (py "Error: " ++ etext e))
    /\ (forall r j,
          up (calls st)
             {| call_verb := POST; call_endpoint := py "/tools/call";
                call_json :=
                  Some (JDict [(py "name", default JNull (dict_lookup (py "name") d));
                               (py "arguments",
                                default (JDict []) (dict_lookup (py "arguments") d))]) |}
          = Answered r ->
          is_success r = true -> bjson r = Some j ->
          is_dict j && dict_has (py "content") j = true ->
          out = j).
Proof.
  unfold handle_tools_call. cbn [py_get py_get_or]. rewrite fastmcp_request_cases.
  change (request_call fz (py "/tools/call") (py "POST") _)
    with {| call_verb := POST; call_endpoint := py "/tools/call";
            call_json :=
              Some (JDict [(py "name", default JNull (dict_lookup (py "name") d));
                           (py "arguments",
                            default (JDict []) (dict_lookup (py "arguments") d))]) |}.
  set (c := {| call_verb := POST; call_endpoint := py "/tools/call"; call_json := _ |}).
  destruct (up (calls st) c) as [dd|r] eqn:U.
  - eexists. split; [reflexivity|]. split; [reflexivity|]. split; [reflexivity|].
    split; [intros _; eexists; reflexivity | intros ? ? [=]].
  - destruct (is_success r) eqn:S.
    + set (result := match bjson r with Some j => j | None => JStr (btext r) end).
      exists (if is_dict result && dict_has (py "content") result
              then result else text_content (show result)).
      split; [reflexivity|]. split.
      { destruct (is_dict result && dict_has (py "content") result) eqn:E; [|reflexivity].
        apply andb_true_iff in E as [_ E]. exact E. }
      split; [reflexivity|]. split.
      { cbn [accepted]. rewrite S. discriminate. }
      intros r' j [= <-] _ Hj Hc. subst result. rewrite Hj, Hc. reflexivity.
    + eexists. split; [reflexivity|]. split; [reflexivity|]. split; [reflexivity|].
      split; [intros _; eexists; reflexivity|].
      intros r' j [= <-] S'. rewrite S in S'. discriminate.
Qed.

(** X7.  [params.get] runs before the [try]: when [params] is not an
    object, [handle_tools_call], [handle_resources_read] and
    [handle_prompts_get] raise [AttributeError] without calling the
    upstream. *)
Theorem params_checked_first (params : json) (st : hub) :
  is_dict params = false ->
  handle_tools_call fz show etext bjson btext up params st = (Raise AttributeError, st)
  /\ handle_resources_read fz show bjson btext up params st = (Raise AttributeError, st)
  /\ handle_prompts_get fz show bjson btext up params st = (Raise AttributeError, st).
Proof.
  intros H. destruct params; try discriminate H; repeat split; reflexivity.
Qed.

(** *** Listings *)

Lemma dict_has_singleton (key : str) (value : json) :
  dict_has key (singleton key value) = true.
Proof. unfold dict_has, singleton. cbn. rewrite str_eqb_refl. reflexivity. Qed.

Lemma listing_has_key (key : str) (result : json) :
  dict_has key (listing key result) = true.
Proof.
  unfold listing. destruct (is_dict result && dict_has key result) eqn:E.
  - apply andb_true_iff in E as [_ E]. exact E.
  - destruct (is_list result); apply dict_has_singleton.
Qed.

(** X8.  [handle_resources_list] never raises and always returns an object
    with a "resources" key: the upstream's object when it has that key, its
    array wrapped under the key, and the empty list for anything else and
    for every failure of the call. *)
Theorem handle_resources_list_total (params : json) (st : hub) :
  exists out,
    (handle_resources_list fz bjson btext up params st).1 = Return out
    /\ dict_has (py "resources") out = true
    /\ (accepted (up (calls st)
                    (request_call fz (py "/resources/list") (py "POST") (Some (JDict []))))
        = false -> out = singleton (py "resources") (JList []))
    /\ (forall r l,
          up (calls st) (request_call fz (py "/resources/list") (py "POST") (Some (JDict [])))
          = Answered r ->
          is_success r = true -> bjson r = Some (JList l) ->
          out = singleton (py "resources") (JList l)).
Proof.
  unfold handle_resources_list. rewrite fastmcp_request_cases.
  destruct (up _ _) as [d|r].
  - eexists. split; [reflexivity|]. split; [apply dict_has_singleton|].
    split; [reflexivity | intros ? ? [=]].
  - destruct (is_success r) eqn:S.
    + eexists. split; [reflexivity|]. split; [apply listing_has_key|].
      split; [cbn [accepted]; rewrite S; discriminate|].
      intros r' l [= <-] _ ->. reflexivity.
    + eexists. split; [reflexivity|]. split; [apply dict_has_singleton|].
      split; [reflexivity|]. intros r' l [= <-] S'. rewrite S in S'. discriminate.
Qed.

(** X9.  [handle_prompts_list] never raises and always returns an object
    with a "prompts" key: the upstream's object when it has that key, its
    array wrapped under the key, and the empty list for anything else and
    for every failure of the call. *)
Theorem handle_prompts_list_total (params : json) (st : hub) :
  exists out,
    (handle_prompts_list fz bjson btext up params st).1 = Return out
    /\ dict_has (py "prompts") out = true
    /\ (accepted (up (calls st)
                    (request_call fz (py "/prompts/list") (py "POST") (Some (JDict []))))
        = false -> out = singleton (py "prompts") (JList []))
    /\ (forall r l,
          up (calls st) (request_call fz (py "/prompts/list") (py "POST") (Some (JDict [])))
          = Answered r ->
          is_success r = true -> bjson r = Some (JList l) ->
          out = singleton (py "prompts") (JList l)).
Proof.
  unfold handle_prompts_list. rewrite fastmcp_request_cases.
  destruct (up _ _) as [d|r].
  - eexists. split; [reflexivity|]. split; [apply dict_has_singleton|].
    split; [reflexivity | intros ? ? [=]].
  - destruct (is_success r) eqn:S.
    + eexists. split; [reflexivity|]. split; [apply listing_has_key|].
      split; [cbn [accepted]; rewrite S; discriminate|].
      intros r' l [= <-] _ ->. reflexivity.
    + eexists. split; [reflexivity|]. split; [apply dict_has_singleton|].
      split; [reflexivity|]. intros r' l [= <-] S'. rewrite S in S'. discriminate.
Qed.

End RestFacts.

Section RestReads.

Variable fz : str -> bool.
Variable show : json -> str.
Variable etext : exn -> str.
Variable bjson : response -> option json.
Variable btext : response -> str.
Variable up : list call -> call -> reply.
Variable url : str.



(** X12.  [handle_initialize] never raises and always announces protocol
    version 2024-11-05 with the tools, resources and prompts capabilities;
    the server name and version are the upstream's when [/info] answers with
    an object that has them, and "FastMCP Bridge" and "1.0.0" when the call
    fails, the answer is not an object, or the key is missing. *)
Theorem handle_initialize_total (params : json) (st : hub) :
  exists name version,
    (handle_initialize fz bjson btext up params st).1
    = Return (initialize_result name version)
    /\ (accepted (up (calls st) (request_call fz (py "/info") (py "GET") None)) = false ->
        name = default_name /\ version = default_version)
    /\ (forall r,
          up (calls st) (request_call fz (py "/info") (py "GET") None) = Answered r ->
          is_success r = true ->
          match bjson r with
          | Some (JDict info) =>
            name = default default_name (dict_lookup (py "name") info)
            /\ version = default default_version (dict_lookup (py "version") info)
          | _ => name = default_name /\ version = default_version
          end)
    /\ request_call fz (py "/info") (py "GET") None
       = {| call_verb := GET; call_endpoint := py "/info"; call_json := None |}.
Proof.
  unfold handle_initialize. rewrite fastmcp_request_cases.
  destruct (up _ _) as [dd|r].
  - exists default_name, default_version. split; [reflexivity|].
    split; [auto|]. split; [intros ? [=] | reflexivity].
  - destruct (is_success r) eqn:S.
    + destruct (bjson r) as [j|] eqn:J.
      * destruct j;
          try (exists default_name, default_version; split; [reflexivity|];
               split; [cbn [accepted]; rewrite S; discriminate|];
               split; [intros r' [= <-] _; rewrite J; auto | reflexivity]).
        eexists _, _. split; [reflexivity|].
        split; [cbn [accepted]; rewrite S; discriminate|].
        split; [intros r' [= <-] _; rewrite J; auto | reflexivity].
      * exists default_name, default_version. split; [reflexivity|].
        split; [cbn [accepted]; rewrite S; discriminate|].
        split; [intros r' [= <-] _; rewrite J; auto | reflexivity].
    + exists default_name, default_version. split; [reflexivity|].
      split; [auto|]. split; [|reflexivity].
      intros r' [= <-] S'. rewrite S in S'. discriminate.
Qed.

(** X13.  [health_check] answers 200 with status "healthy" exactly when the
    GET of [/] is answered with a 2xx status and 503 with status "unhealthy"
    otherwise; it makes that one call, sends no body, and leaves the session
    token and the [/mcp] traffic alone. *)
Theorem health_check_status (st : hub) :
  (http_status (health_check etext up url st).1 = 200%Z
   /\ subscript (content (health_check etext up url st).1) (py "status") = JStr (py "healthy")
   /\ accepted (up (calls st)
                  {| call_verb := GET; call_endpoint := py "/"; call_json := None |}) = true
   \/ http_status (health_check etext up url st).1 = 503%Z
      /\ subscript (content (health_check etext up url st).1) (py "status")
         = JStr (py "unhealthy")
      /\ accepted (up (calls st)
                     {| call_verb := GET; call_endpoint := py "/"; call_json := None |}) = false)
  /\ calls (health_check etext up url st).2
     = calls st ++ [{| call_verb := GET; call_endpoint := py "/"; call_json := None |}]
  /\ session_id (core (health_check etext up url st).2) = session_id (core st)
  /\ wire (core (health_check etext up url st).2) = wire (core st).
Proof.
  unfold health_check, raise_for_status.
  destruct (up (calls st) _) as [dd|r].
  - split; [right; repeat split; reflexivity | repeat split; reflexivity].
  - cbn [accepted]. destruct (is_success r).
    + split; [left; repeat split; reflexivity | repeat split; reflexivity].
    + split; [right; repeat split; reflexivity | repeat split; reflexivity].
Qed.

(** X2.  None of the handlers of the flat endpoints reads or changes the
    session token or sends anything on [/mcp], and each of them calls the
    upstream at most once: there is no retry. *)
Theorem flat_handlers_quiet (params : json) (st : hub) :
  quiet st (handle_initialize fz bjson btext up params st).2
  /\ quiet st (handle_tools_list fz bjson btext up params st).2
  /\ quiet st (handle_tools_call fz show etext bjson btext up params st).2
  /\ quiet st (handle_resources_list fz bjson btext up params st).2
  /\ quiet st (handle_resources_read fz show bjson btext up params st).2
  /\ quiet st (handle_prompts_list fz bjson btext up params st).2
  /\ quiet st (handle_prompts_get fz show bjson btext up params st).2
  /\ quiet st (health_check etext up url st).2.
Proof.
  repeat split.
  all: try (unfold health_check, raise_for_status;
            destruct (up (calls st) _) as [?|r]; [|destruct (is_success r)];
            cbn; solve [reflexivity | eexists [_]; split; [cbn; lia | reflexivity]]).
  all: unfold handle_initialize, handle_tools_list, handle_tools_call,
         handle_resources_list, handle_resources_read, handle_prompts_list,
         handle_prompts_get;
       try (destruct params; cbn [py_get py_get_or fst snd];
            try solve [reflexivity | exists []; rewrite app_nil_r; split; [cbn; lia|reflexivity]]).
  all: try match goal with
       | |- context [fastmcp_request ?a ?b ?c ?d ?e ?f ?g ?h] =>
         pose proof (fastmcp_request_quiet a b c d e f g h) as (Q1 & Q2 & Q3);
         destruct (fastmcp_request a b c d e f g h) as [[res|ex] st'];
         try destruct res; cbn [fst snd] in *; assumption
       end.
Qed.

End RestReads.

Lemma handle_tools_list_swallows_witness :
  (handle_tools_list SampleRest.zero_mantissa SampleRest.json_of SampleRest.text_of
     SampleRest.down JNull hub_boot).1
  = Return (singleton (py "tools") (JList [])).
Proof.
  apply (handle_tools_list_swallows SampleRest.zero_mantissa SampleRest.json_of
           SampleRest.text_of SampleRest.down JNull hub_boot).
  left. reflexivity.
Defined.

Lemma params_checked_first_witness :
  handle_tools_call SampleRest.zero_mantissa SampleRest.show Sample.describe
    SampleRest.json_of SampleRest.text_of SampleRest.down (JList []) hub_boot
  = (Raise AttributeError, hub_boot)
  /\ handle_resources_read SampleRest.zero_mantissa SampleRest.show
       SampleRest.json_of SampleRest.text_of SampleRest.down (JList []) hub_boot
     = (Raise AttributeError, hub_boot)
  /\ handle_prompts_get SampleRest.zero_mantissa SampleRest.show
       SampleRest.json_of SampleRest.text_of SampleRest.down (JList []) hub_boot
     = (Raise AttributeError, hub_boot).
Proof.
  apply (params_checked_first SampleRest.zero_mantissa SampleRest.show Sample.describe
           SampleRest.json_of SampleRest.text_of SampleRest.down (JList []) hub_boot).
  reflexivity.
Defined.

(** The tool list of the sample upstream, normalised: the entry that is not
    an object is dropped, [parameters] stands in for a missing schema, and
    the defaults fill the rest. *)
Example tools_list_normalised :
  (handle_tools_list SampleRest.zero_mantissa SampleRest.json_of SampleRest.text_of
     (SampleRest.always 200 SampleRest.tools_body) JNull hub_boot).1
  = Return
      (singleton (py "tools")
         (JList [JDict [(py "name", JStr (py "sum"));
                        (py "description", JStr []);
                        (py "inputSchema", JDict [(py "type", JStr (py "object"))])];
                 JDict [(py "name", JStr (py "unknown"));
                        (py "description", JStr (py "d"));
                        (py "inputSchema", default_schema)]])).
Proof. vm_compute. reflexivity. Qed.

(** ** More on the session manager and the gateway *)

Section GatewayExtras.

Variable loads : str -> option json.
Variable upstream : list event -> request -> reply.
Variable exn_text : exn -> str.

(** X14.  An accepted handshake always yields a non-empty token: the value
    of the [mcp-session-id] response header when there is one and it is not
    empty, and "default-session" when the header is absent or empty.  The
    token is stored, and the only traffic is the handshake. *)
Theorem session_token_source (st : bridge) (r : response) :
  session_id st = None ->
  upstream (wire st) handshake = Answered r ->
  is_success r = true ->
  exists tok,
    get_or_create_session upstream st
    = (Return tok, set_session (Some tok) (emit (Posted handshake) (with_client st)))
    /\ tok <> []
    /\ (forall v, headers_get session_header (headers r) = Some v -> v <> [] -> tok = v)
    /\ (headers_get session_header (headers r) = None
        \/ headers_get session_header (headers r) = Some [] -> tok = default_session).
Proof.
  intros Hnone Hup Hs. rewrite (get_or_create_session_fresh upstream st Hnone), Hup.
  unfold session_resume, raise_for_status. rewrite Hs.
  destruct (headers_get session_header (headers r)) as [[|c v]|]; cbn [truthy default].
  - exists default_session. split; [reflexivity|]. split; [discriminate|].
    split; [intros v [= <-] Hv; destruct Hv; reflexivity | reflexivity].
  - exists (c :: v). split; [reflexivity|]. split; [discriminate|].
    split; [intros v' [= <-] _; reflexivity | intros [H|H]; discriminate H].
  - exists default_session. split; [reflexivity|]. split; [discriminate|].
    split; [intros v [=] | reflexivity].
Qed.




(** X17.  When the stream of a 2xx answer breaks before any frame has been
    completed, the client is answered with status 500 and "Internal error:
    ..." with its id, after the whole of what arrived has been read. *)
Theorem broken_stream_answered
    (raw : str) (body : json) (st st1 : bridge) (request_id : json) (q : request)
    (r : response) (detail : str) :
  loads raw = Some body ->
  prepare upstream body st = (Return (request_id, q), st1) ->
  upstream (wire st1) q = Answered r ->
  is_success r = true ->
  status_code r <> 202%Z ->
  broken r = Some detail ->
  first_frame loads (complete_lines (concat (map decode_utf8_ignore (chunks r)))) = None ->
  handle_jsonrpc loads upstream exn_text raw st
  = (Return {| content := error_envelope request_id
                            (internal_error_prefix ++ exn_text (TransportError detail));
               http_status := 500 |},
     emit_all (map Pulled (chunks r)) (emit (Posted q) st1)).
Proof.
  intros Hl Hp Hup Hs H202 Hb Hnone.
  destruct (prepare_Return upstream body st st1 request_id q Hp) as (Hid & _).
  rewrite (handle_jsonrpc_relay loads upstream exn_text raw body st st1 request_id q Hl Hp).
  rewrite (relay_stream loads upstream request_id q st1 r Hup Hs H202).
  rewrite (aiter_bytes_exhausted loads (chunks r) Hnone), Hb.
  unfold except_clause. rewrite Hid. reflexivity.
Qed.

(** *** Traffic and the stored token *)

Lemma posted_app (a b : list event) : posted (a ++ b) = posted a + posted b.
Proof.
  induction a as [|[q|c] a IH]; cbn [app posted]; [reflexivity | rewrite IH; lia | exact IH].
Qed.

Lemma posted_Pulled (cs : list bytes) : posted (map Pulled cs) = 0.
Proof. induction cs as [|c cs IH]; [reflexivity | exact IH]. Qed.

Lemma get_or_create_session_wire (st : bridge) :
  exists hs,
    wire (get_or_create_session upstream st).2 = wire st ++ hs
    /\ (hs = [] \/ hs = [Posted handshake])
    /\ (forall t, session_id st = Some t -> hs = []).
Proof.
  destruct (session_id st) as [t|] eqn:E.
  - rewrite (get_or_create_session_cached upstream st t E). exists [].
    rewrite app_nil_r. auto.
  - rewrite (get_or_create_session_fresh upstream st E), session_resume_wire.
    exists [Posted handshake]. split; [reflexivity|]. split; [auto | discriminate].
Qed.

Lemma prepare_wire (body : json) (st : bridge) :
  exists hs,
    wire (prepare upstream body st).2 = wire st ++ hs
    /\ (hs = [] \/ hs = [Posted handshake])
    /\ (forall t, session_id st = Some t -> hs = []).
Proof.
  unfold prepare, bind, lift, read_session, get_http_client, ret.
  destruct (py_get body (py "method")) as [method|e].
  2:{ exists []. rewrite app_nil_r. auto. }
  destruct (py_get body (py "id")) as [rid|e].
  2:{ exists []. rewrite app_nil_r. auto. }
  destruct (is_initialize method); cbn [negb].
  { exists []. cbn. rewrite app_nil_r. auto. }
  destruct (get_or_create_session_wire st) as (hs & Hw & Hhs & Hset).
  exists hs. split; [|auto].
  destruct (get_or_create_session upstream st) as [[tok|e] st0]; exact Hw.
Qed.

(** X18.  One inbound request causes at most two POSTs to the upstream, the
    handshake and the forwarded call, and at most one when a token is
    already stored; a body that is not JSON causes none.  Traffic is only
    ever added: nothing is retried and nothing is rewritten. *)
Theorem traffic_bounded (raw : str) (st : bridge) :
  exists sent,
    wire (handle_jsonrpc loads upstream exn_text raw st).2 = wire st ++ sent
    /\ posted sent <= 2
    /\ (forall t, session_id st = Some t -> posted sent <= 1)
    /\ (loads raw = None -> sent = []).
Proof.
  destruct (loads raw) as [body|] eqn:Hl.
  2:{ exists []. unfold handle_jsonrpc. rewrite Hl, app_nil_r.
      repeat split; cbn; auto; lia. }
  rewrite (handle_jsonrpc_state loads upstream exn_text raw body st Hl).
  unfold try_block, bind.
  destruct (prepare_wire body st) as (hs & Hw & Hhs & Hset).
  destruct (prepare upstream body st) as [[p|e] st1] eqn:P; cbn [snd] in Hw.
  - destruct (relay_keeps loads upstream (fst p) (snd p) st1) as (_ & pulled & Hr).
    exists (hs ++ Posted (snd p) :: map Pulled pulled).
    split; [rewrite Hr, Hw, <- app_assoc; reflexivity|].
    rewrite posted_app. cbn [posted]. rewrite posted_Pulled.
    split; [destruct Hhs as [-> | ->]; cbn; lia|].
    split; [|discriminate]. intros t Ht. rewrite (Hset t Ht). cbn. lia.
  - exists hs. split; [exact Hw|].
    split; [destruct Hhs as [-> | ->]; cbn; lia|].
    split; [|discriminate]. intros t Ht. rewrite (Hset t Ht). cbn. lia.
Qed.

Lemma get_or_create_session_token_ok (st : bridge) :
  token_ok st -> token_ok (get_or_create_session upstream st).2.
Proof.
  intros Hok. destruct (get_or_create_session upstream st) as [[tok|e] st'] eqn:G.
  - destruct (get_or_create_session_token upstream st st' tok Hok G) as [Hne E].
    unfold token_ok. cbn [snd]. rewrite E. congruence.
  - destruct (session_id st) as [t|] eqn:E.
    + rewrite (get_or_create_session_cached upstream st t E) in G. discriminate.
    + rewrite (get_or_create_session_fresh upstream st E) in G.
      unfold session_resume in G. destruct (upstream (wire st) handshake) as [dd|r].
      * injection G as _ <-. unfold token_ok. cbn. rewrite E. discriminate.
      * destruct (raise_for_status r); [discriminate|].
        injection G as _ <-. unfold token_ok. cbn. rewrite E. discriminate.
Qed.

(** X19.  The stored token is never the empty string: the property holds
    at start-up and every inbound request preserves it, so the test
    [if session_id:] of the gateway is a test for a token being stored. *)
Theorem token_never_empty (raw : str) (st : bridge) :
  token_ok st ->
  token_ok (handle_jsonrpc loads upstream exn_text raw st).2
  /\ token_ok boot
  /\ truthy (session_id (handle_jsonrpc loads upstream exn_text raw st).2)
     = match session_id (handle_jsonrpc loads upstream exn_text raw st).2 with
       | Some _ => true
       | None => false
       end.
Proof.
  intros Hok.
  assert (token_ok (handle_jsonrpc loads upstream exn_text raw st).2) as H.
  { destruct (loads raw) as [body|] eqn:Hl.
    2:{ unfold handle_jsonrpc. rewrite Hl. exact Hok. }
    unfold token_ok.
    rewrite (handle_jsonrpc_state loads upstream exn_text raw body st Hl), try_block_session.
    unfold prepare, bind, lift, read_session, get_http_client, ret.
    destruct (py_get body (py "method")) as [method|e]; [|exact Hok].
    destruct (py_get body (py "id")) as [rid|e]; [|exact Hok].
    destruct (is_initialize method); cbn [negb]; [exact Hok|].
    pose proof (get_or_create_session_token_ok st Hok) as G.
    destruct (get_or_create_session upstream st) as [[tok|e] st0]; exact G. }
  split; [exact H|]. split; [exact token_ok_boot|].
  unfold token_ok in H. revert H.
  destruct (session_id (handle_jsonrpc loads upstream exn_text raw st).2) as [[|c t]|];
    intros H; [destruct H; reflexivity | reflexivity | reflexivity].
Qed.

End GatewayExtras.

(** ** More on the decode loop *)

Lemma lstrip_head (s : str) (c : N) (r : str) :
  lstrip s = c :: r -> isspace c = false.
Proof.
  induction s as [|x s IH]; cbn [lstrip]; [discriminate|].
  destruct (isspace x) eqn:E; [exact IH|]. intros [= <- _]. exact E.
Qed.

Lemma lstrip_spaces (a s : str) :
  Forall (fun c => isspace c = true) a -> lstrip (a ++ s) = lstrip s.
Proof.
  induction 1 as [|c a Hc _ IH]; [reflexivity|]. cbn [app lstrip]. rewrite Hc. exact IH.
Qed.

Lemma lstrip_nil_spaces (s : str) :
  lstrip s = [] -> Forall (fun c => isspace c = true) s.
Proof.
  induction s as [|x s IH]; cbn [lstrip]; [constructor|].
  destruct (isspace x) eqn:E; [|discriminate]. intros H. constructor; auto.
Qed.

Lemma lstrip_app_keeps (s b : str) :
  lstrip s <> [] -> lstrip (s ++ b) = lstrip s ++ b.
Proof.
  induction s as [|x s IH]; cbn [app lstrip]; [congruence|].
  destruct (isspace x); [exact IH | reflexivity].
Qed.

Lemma rstrip_spaces (s b : str) :
  Forall (fun c => isspace c = true) b -> rstrip (s ++ b) = rstrip s.
Proof.
  intros Hb. unfold rstrip. rewrite rev_app_distr, lstrip_spaces; [reflexivity|].
  apply Forall_rev. exact Hb.
Qed.

(** [strip] does not see whitespace around its argument. *)
Lemma strip_padding (a l b : str) :
  Forall (fun c => isspace c = true) a ->
  Forall (fun c => isspace c = true) b ->
  strip (a ++ l ++ b) = strip l.
Proof.
  intros Ha Hb. unfold strip. rewrite (lstrip_spaces a (l ++ b) Ha).
  destruct (lstrip l) as [|c r] eqn:E.
  - pose proof (lstrip_nil_spaces l E) as Hl.
    rewrite (lstrip_spaces l b Hl).
    replace (lstrip b) with (@nil N); [reflexivity|].
    symmetry. rewrite <- (app_nil_r b). rewrite (lstrip_spaces b [] Hb). reflexivity.
  - rewrite lstrip_app_keeps by congruence. rewrite E. apply rstrip_spaces, Hb.
Qed.

Lemma startswith_app (p s : str) :
  startswith p s = true -> s = p ++ drop (length p) s.
Proof.
  revert s. induction p as [|x p IH]; intros [|y s]; cbn; try discriminate; [reflexivity..|].
  intros H. apply andb_true_iff in H as [Hx Hp]. apply N.eqb_eq in Hx as ->.
  f_equal. exact (IH s Hp).
Qed.

(** X20.  The payload of a ['data: '] line is never empty: [strip] has
    removed the trailing blank that an empty payload would need, so the test
    [if json_str] of the loop can only pass. *)
Theorem payload_never_empty (line : str) :
  startswith data_prefix (strip line) = true -> drop 6 (strip line) <> [].
Proof.
  intros Hs Hd. pose proof (startswith_app data_prefix (strip line) Hs) as E.
  change (length data_prefix) with 6 in E. rewrite Hd, app_nil_r in E.
  unfold strip, rstrip in E.
  assert (lstrip (rev (lstrip line)) = rev data_prefix) as R.
  { rewrite <- (rev_involutive (lstrip (rev (lstrip line)))), E. reflexivity. }
  apply lstrip_head in R. discriminate R.
Qed.

(** X21.  Whitespace around a line, the carriage return of a CRLF line end
    included, does not change what the loop makes of the line. *)
Theorem line_padding_ignored (loads : str -> option json) (a line b : str) :
  Forall (fun c => isspace c = true) a ->
  Forall (fun c => isspace c = true) b ->
  handle_line loads (a ++ line ++ b) = handle_line loads line.
Proof.
  intros Ha Hb. unfold handle_line. rewrite (strip_padding a line b Ha Hb). reflexivity.
Qed.






(** ** More on concurrent callers *)

Lemma exec_app (a b : list move) (s : system) :
  exec (a ++ b) s = match exec a s with Some s1 => exec b s1 | None => None end.
Proof.
  revert s. induction a as [|m a IH]; intros s; [reflexivity|].
  cbn [app exec]. destruct (step m s); [apply IH | reflexivity].
Qed.

(** X23.  Mutual exclusion: along every run at most one caller is between
    sending the handshake and getting its answer; while one is, the lock is
    held and no token is stored. *)
Theorem one_handshake_in_flight
    (g : bridge) (n : nat) (ms : list move) (s : system) (i j : nat) :
  exec ms (spawn g n) = Some s ->
  tasks s !! i = Some InFlight ->
  tasks s !! j = Some InFlight ->
  i = j /\ session_lock s = true /\ session_id (globals s) = None.
Proof.
  intros Hex Hi Hj.
  destruct (lock_inv_exec ms _ s (lock_inv_spawn g n) Hex) as [Hidle Hheld Huniq _ _].
  split; [exact (Huniq i j Hi Hj)|].
  destruct (session_lock s) eqn:L.
  - split; [reflexivity | exact (Hheld eq_refl)].
  - destruct (Hidle eq_refl i Hi).
Qed.

Lemma lock_inv_progress (s : system) (rp : reply) :
  lock_inv s -> all_finished s = false -> exists m s', step m s = Some s'.
Proof.
  intros [Hidle _ _ Hbusy _] Hfin. destruct (session_lock s) eqn:L.
  - destruct (Hbusy eq_refl) as [i Hi]. exists (Reply i rp).
    unfold step. rewrite Hi. destruct (session_resume rp (globals s)). eauto.
  - destruct (unfinished_waiting (tasks s) Hfin (Hidle eq_refl)) as [i Hi].
    exists (Enter i). unfold step. rewrite Hi, L.
    destruct (session_enter (globals s)) as [[sid|q] g']; eauto.
Qed.

Lemma lock_inv_completes (k : nat) (s : system) :
  lock_inv s -> remaining s <= k ->
  exists ms' s', exec ms' s = Some s' /\ all_finished s' = true.
Proof.
  revert s. induction k as [|k IH]; intros s Hinv Hk.
  - destruct (all_finished s) eqn:F.
    + exists [], s. split; [reflexivity | exact F].
    + destruct (lock_inv_progress s (Refused []) Hinv F) as (m & s1 & Hstep).
      pose proof (step_remaining m s s1 Hstep). lia.
  - destruct (all_finished s) eqn:F.
    + exists [], s. split; [reflexivity | exact F].
    + destruct (lock_inv_progress s (Refused []) Hinv F) as (m & s1 & Hstep).
      pose proof (step_remaining m s s1 Hstep) as Hlt.
      destruct (IH s1 (lock_inv_step m s s1 Hinv Hstep)) as (ms' & s' & Hex & Hfin); [lia|].
      exists (m :: ms'), s'. cbn [exec]. rewrite Hstep. split; assumption.
Qed.

(** X24.  No caller is left waiting: every run, however scheduled and
    whatever the upstream has answered so far, can be continued until all
    callers have returned or raised, and the whole run then has at most two
    moves per caller. *)
Theorem every_run_completes (g : bridge) (n : nat) (ms : list move) (s : system) :
  exec ms (spawn g n) = Some s ->
  exists ms' s',
    exec (ms ++ ms') (spawn g n) = Some s'
    /\ all_finished s' = true
    /\ length (ms ++ ms') <= 2 * n.
Proof.
  intros Hex.
  destruct (lock_inv_completes (remaining s) s
              (lock_inv_exec ms _ s (lock_inv_spawn g n) Hex) (le_n _))
    as (ms' & s' & Hex' & Hfin).
  exists ms', s'.
  assert (exec (ms ++ ms') (spawn g n) = Some s') as H.
  { rewrite exec_app, Hex. exact Hex'. }
  split; [exact H|]. split; [exact Hfin|]. exact (exec_bounded g n _ s' H).
Qed.

(** X25.  Callers that arrive while a token is stored all get that token;
    nothing is sent and the globals stay as they are. *)
Theorem late_callers_served
    (g : bridge) (n : nat) (ms : list move) (s : system) (tok : str) :
  session_id g = Some tok ->
  exec ms (spawn g n) = Some s ->
  globals s = g
  /\ session_lock s = false
  /\ Forall (fun t => t = Waiting \/ t = Finished (Return tok)) (tasks s).
Proof.
  intros Hset. revert s.
  assert (forall s0, globals s0 = g /\ session_lock s0 = false
            /\ Forall (fun t => t = Waiting \/ t = Finished (Return tok)) (tasks s0) ->
          forall s, exec ms s0 = Some s ->
          globals s = g /\ session_lock s = false
          /\ Forall (fun t => t = Waiting \/ t = Finished (Return tok)) (tasks s)) as G.
  { induction ms as [|m ms IH]; intros s0 H0 s; cbn [exec].
    - intros [= <-]. exact H0.
    - destruct (step m s0) as [s1|] eqn:E; [|discriminate]. apply IH.
      destruct H0 as (Hg & Hl & Hall). destruct m as [i|i rp].
      + destruct (step_Enter_inv i s0 s1 E) as (_ & _ & Hs1).
        rewrite Hg, Hset in Hs1. subst s1. cbn [globals session_lock tasks].
        split; [reflexivity|]. split; [reflexivity|].
        apply Forall_insert; [exact Hall | right; reflexivity].
      + destruct (step_Reply_inv i rp s0 s1 E) as (Hi & _).
        apply list_elem_of_lookup_2 in Hi. rewrite Forall_forall in Hall.
        destruct (Hall _ Hi); discriminate. }
  intros s. apply G. split; [reflexivity|]. split; [reflexivity|].
  apply Forall_replicate. left. reflexivity.
Qed.

Lemma sum_map_insert (f : task -> nat) (ts : list task) (i : nat) (old new : task) :
  ts !! i = Some old ->
  sum_list (map f (<[i := new]> ts)) + f old = sum_list (map f ts) + f new.
Proof.
  revert i. induction ts as [|t ts IH]; intros [|i] H; try discriminate.
  - injection H as ->. cbn. lia.
  - specialize (IH i H).
    change (<[S i := new]> (t :: ts)) with (t :: <[i := new]> ts).
    cbn [map sum_list_with] in *. lia.
Qed.

Lemma replicate_snoc (k : nat) (e : event) : replicate k e ++ [e] = replicate (S k) e.
Proof. induction k as [|k IH]; [reflexivity|]. cbn. rewrite IH. reflexivity. Qed.

Lemma accounted_step (g : bridge) (m : move) (s s' : system) :
  lock_inv s ->
  wire (globals s) = wire g ++ replicate (accounted s) (Posted handshake) ->
  step m s = Some s' ->
  wire (globals s') = wire g ++ replicate (accounted s') (Posted handshake).
Proof.
  intros [Hidle Hheld _ _ _] Hw Hstep. unfold accounted in *. destruct m as [i|i rp].
  - destruct (step_Enter_inv i s s' Hstep) as (Hi & Hl & Hs').
    rewrite Hl in Hw. destruct (session_id (globals s)) as [sid|] eqn:E; subst s';
      cbn [globals session_lock tasks session_id emit with_client wire].
    + rewrite E, Hw. do 2 f_equal.
      pose proof (sum_map_insert raised (tasks s) i Waiting (Finished (Return sid)) Hi) as S.
      cbn [raised] in S. lia.
    + rewrite E, Hw, <- app_assoc, replicate_snoc. do 2 f_equal.
      pose proof (sum_map_insert raised (tasks s) i Waiting InFlight Hi) as S.
      cbn [raised] in S. lia.
  - destruct (step_Reply_inv i rp s s' Hstep) as (Hi & Hs').
    assert (session_lock s = true) as L.
    { destruct (session_lock s) eqn:L; [reflexivity | destruct (Hidle eq_refl i Hi)]. }
    pose proof (Hheld L) as Hnone. rewrite L, Hnone in Hw.
    subst s'. cbn [globals session_lock tasks].
    rewrite session_resume_wire, Hw. do 2 f_equal.
    pose proof (sum_map_insert raised (tasks s) i InFlight
                  (Finished (session_resume rp (globals s)).1) Hi) as S.
    cbn [raised] in S.
    destruct (accepted rp) eqn:A.
    + destruct (session_resume_accepted rp (globals s) A) as (tok & _ & R).
      rewrite R in *. cbn [fst snd raised set_session session_id] in *. lia.
    + destruct (session_resume_rejected rp (globals s) A) as (e & R & _).
      rewrite R in *. cbn [fst snd raised] in *. rewrite Hnone. lia.
Qed.

(** X26.  Every handshake is accounted for, whatever the schedule and the
    upstream's answers: the handshakes sent are exactly one per caller whose
    call raised, plus the one in flight if the lock is held, plus one if a
    token is stored.  So at most one handshake ever succeeds, and a further
    one is sent only after a failure. *)
Theorem handshakes_accounted (g : bridge) (n : nat) (ms : list move) (s : system) :
  session_id g = None ->
  exec ms (spawn g n) = Some s ->
  wire (globals s) = wire g ++ replicate (accounted s) (Posted handshake).
Proof.
  intros Hnone.
  assert (forall s0, lock_inv s0 ->
            wire (globals s0) = wire g ++ replicate (accounted s0) (Posted handshake) ->
            forall s2, exec ms s0 = Some s2 ->
            wire (globals s2) = wire g ++ replicate (accounted s2) (Posted handshake)) as G.
  { induction ms as [|m ms IH]; intros s0 Hinv Hw s2; cbn [exec].
    - intros [= <-]. exact Hw.
    - destruct (step m s0) as [s1|] eqn:E; [|discriminate].
      apply IH; [exact (lock_inv_step m s0 s1 Hinv E) | exact (accounted_step g m s0 s1 Hinv Hw E)]. }
  apply G; [apply lock_inv_spawn|].
  unfold accounted, spawn. cbn [globals session_lock tasks]. rewrite Hnone.
  replace (sum_list (map raised (replicate n Waiting))) with 0.
  - cbn. rewrite app_nil_r. reflexivity.
  - induction n as [|k IHk]; [reflexivity | exact IHk].
Qed.

(** ** Worked examples for the further properties *)

Lemma session_token_source_witness :
  exists tok,
    get_or_create_session (Sample.serving []) boot
    = (Return tok, set_session (Some tok) (emit (Posted handshake) (with_client boot)))
    /\ tok <> []
    /\ (forall v, headers_get session_header (headers (Sample.ok [])) = Some v ->
          v <> [] -> tok = v)
    /\ (headers_get session_header (headers (Sample.ok [])) = None
        \/ headers_get session_header (headers (Sample.ok [])) = Some [] ->
        tok = default_session).
Proof.
  apply (session_token_source (Sample.serving []) boot (Sample.ok [])); reflexivity.
Defined.



Lemma broken_stream_answered_witness :
  handle_jsonrpc RefJson.loads SampleRest.breaking Sample.describe Sample.tools_list_call boot
  = (Return {| content :=
                 error_envelope (JInt 7)
                   (internal_error_prefix
                    ++ Sample.describe (TransportError (py "peer closed connection")));
               http_status := 500 |},
     emit_all (map Pulled (chunks SampleRest.cut_short))
       (emit (Posted (forwarded (Some Sample.token) Sample.tools_list_body)) Sample.joined)).
Proof.
  apply (broken_stream_answered RefJson.loads SampleRest.breaking Sample.describe
           Sample.tools_list_call Sample.tools_list_body boot Sample.joined (JInt 7)
           (forwarded (Some Sample.token) Sample.tools_list_body) SampleRest.cut_short
           (py "peer closed connection"));
    try (vm_compute; reflexivity).
  vm_compute. lia.
Defined.

Lemma token_never_empty_witness :
  token_ok (handle_jsonrpc RefJson.loads (Sample.serving [Sample.tools_frame])
              Sample.describe Sample.tools_list_call boot).2
  /\ token_ok boot
  /\ truthy (session_id (handle_jsonrpc RefJson.loads (Sample.serving [Sample.tools_frame])
                           Sample.describe Sample.tools_list_call boot).2)
     = match session_id (handle_jsonrpc RefJson.loads (Sample.serving [Sample.tools_frame])
                           Sample.describe Sample.tools_list_call boot).2 with
       | Some _ => true
       | None => false
       end.
Proof.
  apply (token_never_empty RefJson.loads (Sample.serving [Sample.tools_frame])
           Sample.describe Sample.tools_list_call boot).
  vm_compute. discriminate.
Defined.

Lemma payload_never_empty_witness :
  startswith data_prefix (strip (Sample.text "  data: [DONE] $")) = true
  /\ drop 6 (strip (Sample.text "  data: [DONE] $")) <> [].
Proof.
  split; [reflexivity|].
  apply (payload_never_empty (Sample.text "  data: [DONE] $")). reflexivity.
Defined.

Lemma line_padding_ignored_witness :
  handle_line RefJson.loads ([32%N; 9%N] ++ Sample.unterminated_tail ++ [13%N])
  = handle_line RefJson.loads Sample.unterminated_tail.
Proof.
  apply (line_padding_ignored RefJson.loads [32%N; 9%N] Sample.unterminated_tail [13%N]);
    repeat constructor.
Defined.


Lemma one_handshake_in_flight_witness :
  1 = 1 /\ session_lock SampleRest.waiting_for_answer = true
  /\ session_id (globals SampleRest.waiting_for_answer) = None.
Proof.
  apply (one_handshake_in_flight boot 3 [Enter 1] SampleRest.waiting_for_answer 1 1);
    reflexivity.
Defined.

Lemma every_run_completes_witness :
  exists ms' s',
    exec ([Enter 1] ++ ms') (spawn boot 3) = Some s'
    /\ all_finished s' = true
    /\ length ([Enter 1] ++ ms') <= 2 * 3.
Proof.
  apply (every_run_completes boot 3 [Enter 1] SampleRest.waiting_for_answer). reflexivity.
Defined.

Lemma late_callers_served_witness :
  globals SampleRest.served_late = Sample.joined
  /\ session_lock SampleRest.served_late = false
  /\ Forall (fun t => t = Waiting \/ t = Finished (Return Sample.token))
       (tasks SampleRest.served_late).
Proof.
  apply (late_callers_served Sample.joined 2 [Enter 0] SampleRest.served_late Sample.token);
    reflexivity.
Defined.

Lemma handshakes_accounted_witness :
  wire (globals SampleRest.rough_end)
  = wire boot ++ replicate (accounted SampleRest.rough_end) (Posted handshake).
Proof.
  apply (handshakes_accounted boot 2 Sample.rough_run SampleRest.rough_end);
    [reflexivity | vm_compute; reflexivity].
Defined.

Lemma tokens_agree_witness : Sample.token = Sample.token.
Proof.
  apply (tokens_agree boot 3 Sample.calm_run Sample.calm_end 0 2
           Sample.token Sample.token);
    [vm_compute; reflexivity | reflexivity | reflexivity].
Defined.

Lemma aiter_bytes_chunking_ascii_witness :
  (aiter_bytes RefJson.loads Sample.split_stream []).1
  = (aiter_bytes RefJson.loads [concat Sample.split_stream] []).1.
Proof.
  apply (aiter_bytes_chunking_ascii RefJson.loads Sample.split_stream
           [concat Sample.split_stream]).
  - vm_compute. repeat constructor.
  - vm_compute. repeat constructor.
  - vm_compute. reflexivity.
Defined.

